(** * The page-extraction pipeline of [production_analyzer.py]

    A shallow embedding of [ProductionPDFAnalyzer]: the processed-set
    tracker, the round normaliser, the response recovery parser, the
    extraction client with its retry loop, [process_pdf] and the batch
    orchestrator, followed by the properties the specification states
    about them.

    Conventions.
    - Python [str] and [bytes] values are [string]; the text is ASCII
      (code points below 128), which is what the round table, the JSON
      punctuation and the fence markers are made of.
    - [self] and the files under [results/] are one record, [Analyzer],
      threaded through every method; a method is a function
      [Analyzer -> res A * Analyzer].  State changes made before an
      exception is raised are kept, as in Python.
    - What the outside world answers (the PDF library, the model service)
      is data: a [Pdf] carries its pages, a [Page] carries what rendering
      gives and what each call of the service returns.  Writing a file
      succeeds; logging is left out.
    - [json.loads] is the standard library's; the parser is written over
      an arbitrary decoder [json_loads], [None] standing for
      [json.JSONDecodeError].  [JsonDecoder.loads] is a decoder used to
      run the pipeline on concrete responses. *)

From Stdlib Require Import Ascii String QArith.
From stdpp Require Import gmap strings list pretty sorting.

#[local] Set Warnings "-register-all,-clear-no-such-hyp".
Open Scope string_scope.

(** ** Python strings *)

Module Str.

(** [str.isspace] on ASCII: TAB..CR, FS..US and the space. *)
Definition isspace (c : ascii) : bool :=
  let n := nat_of_ascii c in
  (((9 <=? n) && (n <=? 13)) || ((28 <=? n) && (n <=? 32)))%nat.

Definition lower_char (c : ascii) : ascii :=
  let n := nat_of_ascii c in
  if ((65 <=? n) && (n <=? 90))%nat then ascii_of_nat (n + 32) else c.

Fixpoint lower (s : string) : string :=
  match s with
  | EmptyString => EmptyString
  | String c s' => String (lower_char c) (lower s')
  end.

Fixpoint lstrip (s : string) : string :=
  match s with
  | EmptyString => EmptyString
  | String c s' => if isspace c then lstrip s' else s
  end.

Definition rstrip (s : string) : string := String.rev (lstrip (String.rev s)).

Definition strip (s : string) : string := rstrip (lstrip s).

Definition startswith (s p : string) : bool := String.prefix p s.

(** [s[:i]] and [s[i:]] for [0 <= i]. *)
Fixpoint take (i : nat) (s : string) : string :=
  match i, s with
  | S j, String c s' => String c (take j s')
  | _, _ => EmptyString
  end.

Fixpoint drop (i : nat) (s : string) : string :=
  match i, s with
  | S j, String _ s' => drop j s'
  | _, _ => s
  end.

(** [needle in s]. *)
Fixpoint contains (needle s : string) : bool :=
  String.prefix needle s ||
  match s with
  | EmptyString => false
  | String _ s' => contains needle s'
  end.

(** [s.count(sub)] for a non-empty [sub]: occurrences that do not
    overlap, found from the left.  [skip] is the number of characters
    still covered by the occurrence found last. *)
Fixpoint count_go (sub s : string) (skip : nat) : nat :=
  match s with
  | EmptyString => 0
  | String _ s' =>
      match skip with
      | S k => count_go sub s' k
      | O => if String.prefix sub s
             then S (count_go sub s' (String.length sub - 1))
             else count_go sub s' 0
      end
  end.

Definition count (s sub : string) : nat := count_go sub s 0.

(** [s.split(sep)] for a non-empty [sep].  [cur] holds the piece being
    read, last character first. *)
Fixpoint split_go (sep s : string) (skip : nat) (cur : string) : list string :=
  match s with
  | EmptyString => [String.rev cur]
  | String c s' =>
      match skip with
      | S k => split_go sep s' k cur
      | O => if String.prefix sep s
             then String.rev cur :: split_go sep s' (String.length sep - 1) EmptyString
             else split_go sep s' 0 (String c cur)
      end
  end.

Definition split (s sep : string) : list string := split_go sep s 0 EmptyString.

(** The double quote, and a Python literal written with an apostrophe
    wherever it has a double quote. *)
Definition dq : ascii := ascii_of_nat 34.

Fixpoint py (s : string) : string :=
  match s with
  | EmptyString => EmptyString
  | String c s' => String (if Ascii.eqb c "'" then dq else c) (py s')
  end.

End Str.

(** ** Exceptions *)

(** The exception classes the handlers of the source tell apart.
    [KeyboardInterrupt] is not an [Exception]: [except Exception] lets
    it through. *)
Inductive exn : Type :=
| RequestException     (* requests.exceptions.RequestException *)
| JSONDecodeError      (* json.JSONDecodeError *)
| OtherException       (* any other subclass of Exception *)
| KeyboardInterrupt.

Definition is_Exception (e : exn) : bool :=
  match e with KeyboardInterrupt => false | _ => true end.

Inductive res (A : Type) : Type :=
| Ok (a : A)
| Raise (e : exn).
Arguments Ok {A} a.
Arguments Raise {A} e.

(** ** Python values *)

(** What [json.loads] can return.  A float is named by its [repr]; a
    dict keeps its items in insertion order. *)
Inductive pyvalue : Type :=
| PNone
| PBool (b : bool)
| PInt (z : Z)
| PFloat (repr : string)
| PStr (s : string)
| PList (l : list pyvalue)
| PDict (d : list (string * pyvalue)).

Abbreviation pydict := (list (string * pyvalue)).

(** [d.get(k)] is [None] for a missing key. *)
Fixpoint dict_lookup (d : pydict) (k : string) : option pyvalue :=
  match d with
  | [] => None
  | (k', v) :: d' => if String.eqb k' k then Some v else dict_lookup d' k
  end.

(** [d.get(k, default)]. *)
Definition dict_get (d : pydict) (k : string) (default : pyvalue) : pyvalue :=
  match dict_lookup d k with Some v => v | None => default end.

(** [d[k] = v]: in place for a key that is there, at the end otherwise. *)
Fixpoint dict_set (d : pydict) (k : string) (v : pyvalue) : pydict :=
  match d with
  | [] => [(k, v)]
  | (k', v') :: d' =>
      if String.eqb k' k then (k', v) :: d' else (k', v') :: dict_set d' k v
  end.

(** Truth value of an object. *)
Definition truthy (v : pyvalue) : bool :=
  match v with
  | PNone => false
  | PBool b => b
  | PInt z => negb (z =? 0)%Z
  | PFloat r => negb (String.eqb r "0.0" || String.eqb r "-0.0")
  | PStr s => negb (String.eqb s "")
  | PList l => match l with [] => false | _ => true end
  | PDict d => match d with [] => false | _ => true end
  end.

Definition is_str (v : pyvalue) : bool :=
  match v with PStr _ => true | _ => false end.

(** [repr] of a [str]: in apostrophes, unless the text has an apostrophe
    and no double quote; backslash, the quote and the control characters
    are escaped. *)
Definition hex_digit (n : nat) : ascii :=
  ascii_of_nat (if n <? 10 then 48 + n else 87 + n)%nat.

Definition repr_char (quote c : ascii) : string :=
  let n := nat_of_ascii c in
  if Ascii.eqb c "\" then "\\"
  else if Ascii.eqb c quote then String "\" (String c "")
  else if (n =? 9)%nat then "\t"
  else if (n =? 10)%nat then "\n"
  else if (n =? 13)%nat then "\r"
  else if ((n <? 32) || (n =? 127))%nat
       then "\x" +:+ String (hex_digit (n / 16)%nat) (String (hex_digit (n mod 16)%nat) "")
  else String c "".

Fixpoint repr_chars (quote : ascii) (s : string) : string :=
  match s with
  | EmptyString => EmptyString
  | String c s' => repr_char quote c +:+ repr_chars quote s'
  end.

Definition repr_str (s : string) : string :=
  let quote := if Str.contains "'" s && negb (Str.contains (String Str.dq "") s)
               then Str.dq else "'"%char in
  String quote (repr_chars quote s) +:+ String quote "".

Fixpoint join (sep : string) (l : list string) : string :=
  match l with
  | [] => ""
  | [x] => x
  | x :: l' => x +:+ sep +:+ join sep l'
  end.

Fixpoint repr (v : pyvalue) : string :=
  match v with
  | PNone => "None"
  | PBool true => "True"
  | PBool false => "False"
  | PInt z => pretty z
  | PFloat r => r
  | PStr s => repr_str s
  | PList l => "[" +:+ join ", " (map repr l) +:+ "]"
  | PDict d =>
      "{" +:+ join ", " (map (fun kv => repr_str (fst kv) +:+ ": " +:+ repr (snd kv)) d) +:+ "}"
  end.

(** [str(v)], also what an f-string puts for [{v}]. *)
Definition str (v : pyvalue) : string :=
  match v with
  | PStr s => s
  | _ => repr v
  end.

(** ** Records, statistics and the analyzer state *)

Record SoftwareRecord : Type := mkSoftwareRecord {
  district : pyvalue;
  school_name : pyvalue;
  approx_level : pyvalue;
  software : pyvalue;
  vendor : pyvalue;
  use_type : pyvalue;
  host_type : pyvalue;
  num_school_lic : pyvalue;
  num_district_lic : pyvalue;
  cost_per_lic : pyvalue;
  cost_total : pyvalue;
  contract_start_month : pyvalue;
  contract_start_year : pyvalue;
  contract_length_years : pyvalue;
  install_month : pyvalue;
  install_year : pyvalue;
  quote_month : pyvalue;
  quote_year : pyvalue;
  misc_notes : pyvalue;
  round : pyvalue;
  source_file : pyvalue;
  page_number : pyvalue
}.

Definition to_dict (r : SoftwareRecord) : pydict :=
  [ ("District", district r);
    ("School_Name", school_name r);
    ("Approx_Level", approx_level r);
    ("Software", software r);
    ("Vendor", vendor r);
    ("Use_Type", use_type r);
    ("Host_Type", host_type r);
    ("Num_School_LIC", num_school_lic r);
    ("Num_District_LIC", num_district_lic r);
    ("Cost_per_LIC", cost_per_lic r);
    ("Cost_total", cost_total r);
    ("Contract_StartMonth", contract_start_month r);
    ("Contract_StartYear", contract_start_year r);
    ("Contract_Length_Years", contract_length_years r);
    ("Install_Month", install_month r);
    ("Install_Year", install_year r);
    ("Quote_Month", quote_month r);
    ("Quote_Year", quote_year r);
    ("Misc_Notes", misc_notes r);
    ("Round", round r);
    ("Source_File", source_file r);
    ("Page_Number", page_number r) ].

Record Stats : Type := mkStats {
  districts_processed : nat;
  pdfs_processed : nat;
  pages_analyzed : nat;
  software_records_extracted : nat;
  api_calls_made : nat;
  errors_encountered : nat
}.

Definition stats0 : Stats := mkStats 0 0 0 0 0 0.

(** [results/processed_pdfs.json]. *)
Inductive TrackerFile : Type :=
| NoFile
| Unreadable                       (* there, but [json.load] fails on it *)
| Tracker (ids : gset string).     (* the ['processed_pdfs'] list *)

(** What the run does to the outside, in order. *)
Inductive Event : Type :=
| EvOpen (pdf : string)                          (* fitz.open in process_pdf *)
| EvExtract (pdf : string) (page_num : nat)      (* extract_page_content *)
| EvPost (pdf : string) (page_num attempt : nat) (* requests.post *)
| EvSleep (seconds : Q)                          (* time.sleep *)
| EvSaveTracker (ids : gset string)              (* save_processed_pdfs *)
| EvWriteRows (main : bool) (n : nat).           (* write_detailed_csv *)

Record Analyzer : Type := mkAnalyzer {
  processed_pdfs : gset string;                    (* self.processed_pdfs *)
  stats : Stats;                                   (* self.stats *)
  processed_pdfs_file : TrackerFile;
  main_csv_file : option (list SoftwareRecord);    (* extracted_software_data.csv *)
  timestamped_files : list (list SoftwareRecord);  (* intermediate_/final_ copies *)
  trace : list Event
}.

Definition set_processed_pdfs (f : gset string -> gset string) (a : Analyzer) : Analyzer :=
  mkAnalyzer (f (processed_pdfs a)) (stats a) (processed_pdfs_file a)
             (main_csv_file a) (timestamped_files a) (trace a).

Definition set_stats (f : Stats -> Stats) (a : Analyzer) : Analyzer :=
  mkAnalyzer (processed_pdfs a) (f (stats a)) (processed_pdfs_file a)
             (main_csv_file a) (timestamped_files a) (trace a).

Definition set_processed_pdfs_file (t : TrackerFile) (a : Analyzer) : Analyzer :=
  mkAnalyzer (processed_pdfs a) (stats a) t
             (main_csv_file a) (timestamped_files a) (trace a).

Definition set_main_csv_file (c : option (list SoftwareRecord)) (a : Analyzer) : Analyzer :=
  mkAnalyzer (processed_pdfs a) (stats a) (processed_pdfs_file a)
             c (timestamped_files a) (trace a).

Definition add_timestamped_file (c : list SoftwareRecord) (a : Analyzer) : Analyzer :=
  mkAnalyzer (processed_pdfs a) (stats a) (processed_pdfs_file a)
             (main_csv_file a) (timestamped_files a ++ [c])%list (trace a).

Definition emit (e : Event) (a : Analyzer) : Analyzer :=
  mkAnalyzer (processed_pdfs a) (stats a) (processed_pdfs_file a)
             (main_csv_file a) (timestamped_files a) (trace a ++ [e])%list.

Definition incr_districts_processed (s : Stats) : Stats :=
  mkStats (S (districts_processed s)) (pdfs_processed s) (pages_analyzed s)
          (software_records_extracted s) (api_calls_made s) (errors_encountered s).

Definition incr_pdfs_processed (s : Stats) : Stats :=
  mkStats (districts_processed s) (S (pdfs_processed s)) (pages_analyzed s)
          (software_records_extracted s) (api_calls_made s) (errors_encountered s).

Definition incr_pages_analyzed (s : Stats) : Stats :=
  mkStats (districts_processed s) (pdfs_processed s) (S (pages_analyzed s))
          (software_records_extracted s) (api_calls_made s) (errors_encountered s).

Definition add_software_records_extracted (n : nat) (s : Stats) : Stats :=
  mkStats (districts_processed s) (pdfs_processed s) (pages_analyzed s)
          (software_records_extracted s + n) (api_calls_made s) (errors_encountered s).

Definition incr_api_calls_made (s : Stats) : Stats :=
  mkStats (districts_processed s) (pdfs_processed s) (pages_analyzed s)
          (software_records_extracted s) (S (api_calls_made s)) (errors_encountered s).

Definition incr_errors_encountered (s : Stats) : Stats :=
  mkStats (districts_processed s) (pdfs_processed s) (pages_analyzed s)
          (software_records_extracted s) (api_calls_made s) (S (errors_encountered s)).

(** ** Methods as state-passing functions *)

Definition M (A : Type) : Type := Analyzer -> res A * Analyzer.

Definition ret {A} (a : A) : M A := fun st => (Ok a, st).

Definition raise {A} (e : exn) : M A := fun st => (Raise e, st).

Definition bind {A B} (m : M A) (k : A -> M B) : M B :=
  fun st =>
    match m st with
    | (Ok a, st') => k a st'
    | (Raise e, st') => (Raise e, st')
    end.

Definition modify (f : Analyzer -> Analyzer) : M unit := fun st => (Ok tt, f st).

Definition gets {A} (f : Analyzer -> A) : M A := fun st => (Ok (f st), st).

(** [try: body except <classes>: handler]. *)
Definition try_except {A} (body : M A) (catches : exn -> bool) (handler : exn -> M A) : M A :=
  fun st =>
    match body st with
    | (Raise e, st') => if catches e then handler e st' else (Raise e, st')
    | r => r
    end.

Notation "x <-- m ;; k" := (bind m (fun x => k))
  (at level 100, m at next level, right associativity).
Notation "m ;;; k" := (bind m (fun _ => k))
  (at level 100, right associativity).

(** ** The processed-set tracker *)

Definition load_processed_pdfs (f : TrackerFile) : gset string :=
  match f with
  | Tracker ids => ids
  | NoFile => ∅
  | Unreadable => ∅
  end.

Definition save_processed_pdfs : M unit :=
  modify (fun st =>
    emit (EvSaveTracker (processed_pdfs st))
         (set_processed_pdfs_file (Tracker (processed_pdfs st)) st)).

Definition clear_tracking_file : M unit :=
  modify (fun st =>
    match processed_pdfs_file st with
    | NoFile => st
    | _ => set_processed_pdfs (fun _ => ∅) (set_processed_pdfs_file NoFile st)
    end).

Definition get_pdf_identifier (pdf_name district round_num : string) : string :=
  district +:+ "/" +:+ round_num +:+ "/" +:+ pdf_name.

Definition is_pdf_already_processed (pdf_name district round_num : string) : M bool :=
  gets (fun st => bool_decide (get_pdf_identifier pdf_name district round_num ∈ processed_pdfs st)).

Definition mark_pdf_as_processed (pdf_name district round_num : string) : M unit :=
  let pdf_id := get_pdf_identifier pdf_name district round_num in
  modify (set_processed_pdfs (fun s => s ∪ {[pdf_id]})) ;;;
  n <-- gets (fun st => size (processed_pdfs st)) ;;
  if (n mod 5 =? 0)%nat then save_processed_pdfs else ret tt.

(** [__init__]: the processed set is read from the tracking file, the
    counters start at zero. *)
Definition init (tracker : TrackerFile) (csv : option (list SoftwareRecord)) : Analyzer :=
  mkAnalyzer (load_processed_pdfs tracker) stats0 tracker csv [] [].

(** A PDF as the tracker names it: file name, district, round. *)
Definition pdf_key : Type := string * string * string.

Definition key_identifier (k : pdf_key) : string :=
  get_pdf_identifier k.1.1 k.1.2 k.2.

Fixpoint mark_each (ks : list pdf_key) : M unit :=
  match ks with
  | [] => ret tt
  | k :: ks' => mark_pdf_as_processed k.1.1 k.1.2 k.2 ;;; mark_each ks'
  end.

Definition is_save (e : Event) : bool :=
  match e with EvSaveTracker _ => true | _ => false end.

Definition saves (tr : list Event) : nat := length (filter is_save tr).

(** Identifiers in memory that the tracking file does not have. *)
Definition unsaved (st : Analyzer) : gset string :=
  processed_pdfs st ∖ load_processed_pdfs (processed_pdfs_file st).

(** ** The outside world *)

(** What one call of the model service gives: the text under
    [choices[0].message.content], or an exception ([raise_for_status], a
    timeout, a body that is not the expected JSON, an interrupt). *)
Inductive post_result : Type :=
| Response (content : string)
| PostRaises (e : exn).

(** A page: what rendering gives ([None] when PyMuPDF raises) and what
    the service answers to the first, second, ... call for this page. *)
Record Page : Type := mkPage {
  page_render : option (string * string);   (* PNG bytes, text layer *)
  page_post : nat -> post_result
}.

(** A PDF file: [pdf_pages] is [None] when [fitz.open] raises. *)
Record Pdf : Type := mkPdf {
  pdf_path : string;
  pdf_name : string;                        (* pdf_path.name *)
  pdf_pages : option (list Page)
}.

(** An entry of a district folder, with the PDFs [rglob] finds below it,
    in the order it yields them. *)
Record Folder : Type := mkFolder {
  folder_name : string;
  folder_is_dir : bool;
  folder_pdfs : list Pdf
}.

(** An entry of [RA_tasks_2025], with its own entries in [iterdir]
    order. *)
Record District : Type := mkDistrict {
  district_name : string;
  district_is_dir : bool;
  district_items : list Folder
}.

(** ** Round normaliser *)

Definition round_patterns : gmap string string :=
  list_to_map
    [ ("r1", "1"); ("round 1", "1"); ("round1", "1");
      ("r2", "2"); ("round 2", "2"); ("round2", "2");
      ("r3", "3"); ("round 3", "3"); ("round3", "3");
      ("r4", "4"); ("round 4", "4"); ("round4", "4");
      ("r5", "5"); ("round 5", "5"); ("round5", "5");
      ("fy 16-17", "1"); ("fy 17-18", "2"); ("fy 18-19", "3") ].

Definition year_to_round : gmap string string :=
  list_to_map
    [ ("2015", "1"); ("2016", "1"); ("2017", "1");
      ("2018", "2");
      ("2019", "3");
      ("2022", "4") ].

Definition nonempty (s : string) : bool := negb (String.eqb s "").

Definition normalize_round_name (folder_name : string) : option string :=
  let folder_lower := Str.strip (Str.lower folder_name) in
  round_patterns !! folder_lower.

Definition validate_round_year (round_num year_str : string) : bool :=
  if negb (nonempty year_str) || negb (nonempty round_num) then true
  else
    match year_to_round !! year_str with
    | Some expected_round =>
        if nonempty expected_round && negb (String.eqb expected_round round_num)
        then false else true
    | None => true
    end.

(** One step of the loop of [get_round_folders]. *)
Definition add_round_folder (round_folders : gmap string Folder) (item : Folder)
  : gmap string Folder :=
  if folder_is_dir item then
    match normalize_round_name (folder_name item) with
    | Some round_num =>
        if nonempty round_num then
          match round_folders !! round_num with
          | Some current =>
              let current_name := folder_name current in
              let new_name := folder_name item in
              if (String.length new_name <? String.length current_name)%nat
                 || Str.startswith new_name "R"
              then <[round_num := item]> round_folders
              else round_folders
          | None => <[round_num := item]> round_folders
          end
        else round_folders
    | None => round_folders
    end
  else round_folders.

(** [items] is [None] when the district path does not exist. *)
Definition get_round_folders (items : option (list Folder)) : gmap string Folder :=
  match items with
  | None => ∅
  | Some l => foldl add_round_folder ∅ l
  end.

(** ** The regular expressions of the recovery parser *)

Definition is_closer (c : ascii) : bool := Ascii.eqb c "}" || Ascii.eqb c "]".

(** The [re.sub] of strategy 2: a comma, any white space and a closing
    brace or bracket are replaced by the closing character.  [pending]
    is a comma and the white space after it, read but not yet written:
    they are dropped when a closing character comes next and written
    back otherwise. *)
Fixpoint sub_trailing_commas (s : string) (pending : option string) : string :=
  match s with
  | EmptyString => match pending with Some p => p | None => EmptyString end
  | String c s' =>
      match pending with
      | None =>
          if Ascii.eqb c "," then sub_trailing_commas s' (Some ",")
          else String c (sub_trailing_commas s' None)
      | Some p =>
          if Str.isspace c then sub_trailing_commas s' (Some (p +:+ String c ""))
          else if is_closer c then String c (sub_trailing_commas s' None)
          else if Ascii.eqb c "," then p +:+ sub_trailing_commas s' (Some ",")
          else p +:+ String c (sub_trailing_commas s' None)
      end
  end.

Definition remove_trailing_commas (s : string) : string := sub_trailing_commas s None.

(** The suffix of [s] from the first [c] on. *)
Fixpoint from_first (c : ascii) (s : string) : option string :=
  match s with
  | EmptyString => None
  | String d s' => if Ascii.eqb d c then Some s else from_first c s'
  end.

(** The prefix of [s] up to the last [c]. *)
Fixpoint upto_last (c : ascii) (s : string) : option string :=
  match s with
  | EmptyString => None
  | String d s' =>
      match upto_last c s' with
      | Some p => Some (String d p)
      | None => if Ascii.eqb d c then Some (String d EmptyString) else None
      end
  end.

(** The [re.search] of strategy 3 (an opening bracket, anything, a
    closing bracket, with [re.DOTALL]): the greedy match starts at the
    first opening bracket and ends at the last closing one. *)
Definition search_array (s : string) : option string :=
  match from_first "[" s with
  | Some t => upto_last "]" t
  | None => None
  end.

(** The object pattern of [extract_json_objects]: an opening brace, then
    text without braces and groups in braces whose text has no braces,
    then a closing brace.  A match is read after its opening brace:
    [inner] says that a brace of the second level is open, [acc] is the
    text matched so far, last character first.  The result is the match
    and what follows it. *)
Fixpoint match_object (s : string) (inner : bool) (acc : string) : option (string * string) :=
  match s with
  | EmptyString => None
  | String c s' =>
      if Ascii.eqb c "}" then
        if inner then match_object s' false (String c acc)
        else Some (String.rev (String c acc), s')
      else if Ascii.eqb c "{" then
        if inner then None else match_object s' true (String c acc)
      else match_object s' inner (String c acc)
  end.

(** [re.findall] of that pattern: matches from the left that do not
    overlap.  Every step drops a character, so a fuel of the length of
    the text is never used up. *)
Fixpoint findall_objects_go (fuel : nat) (s : string) : list string :=
  match fuel, s with
  | S f, String c s' =>
      if Ascii.eqb c "{" then
        match match_object s' false (String c EmptyString) with
        | Some (m, rest) => m :: findall_objects_go f rest
        | None => findall_objects_go f s'
        end
      else findall_objects_go f s'
  | _, _ => []
  end.

Definition findall_objects (s : string) : list string :=
  findall_objects_go (String.length s) s.

(** ** A JSON decoder *)

(** A decoder for JSON texts made of objects, arrays, strings, integers
    and the three literals, written after the scanner of the [json]
    module: white space is blank, TAB, LF and CR; a string may not hold
    a raw control character; of two equal keys the later value stays.
    Numbers with a fraction or an exponent and the literals NaN and
    Infinity are not decoded; no text below has them. *)
Module JsonDecoder.

Definition is_ws (c : ascii) : bool :=
  let n := nat_of_ascii c in
  ((n =? 32) || (n =? 9) || (n =? 10) || (n =? 13))%nat.

Fixpoint skip_ws (s : string) : string :=
  match s with
  | String c s' => if is_ws c then skip_ws s' else s
  | EmptyString => s
  end.

Definition hex_value (c : ascii) : option nat :=
  let n := nat_of_ascii c in
  if ((48 <=? n) && (n <=? 57))%nat then Some (n - 48)%nat
  else if ((97 <=? n) && (n <=? 102))%nat then Some (n - 87)%nat
  else if ((65 <=? n) && (n <=? 70))%nat then Some (n - 55)%nat
  else None.

Definition hex4 (a b c d : ascii) : option nat :=
  match hex_value a, hex_value b, hex_value c, hex_value d with
  | Some x, Some y, Some z, Some w => Some (((x * 16 + y) * 16 + z) * 16 + w)%nat
  | _, _, _, _ => None
  end.

Definition unescape (c : ascii) : option ascii :=
  if Ascii.eqb c Str.dq then Some Str.dq
  else if Ascii.eqb c "\" then Some "\"%char
  else if Ascii.eqb c "/" then Some "/"%char
  else if Ascii.eqb c "b" then Some (ascii_of_nat 8)
  else if Ascii.eqb c "f" then Some (ascii_of_nat 12)
  else if Ascii.eqb c "n" then Some (ascii_of_nat 10)
  else if Ascii.eqb c "r" then Some (ascii_of_nat 13)
  else if Ascii.eqb c "t" then Some (ascii_of_nat 9)
  else None.

(** A string read after its opening quote: the text and what follows
    the closing quote. *)
Fixpoint scan_string (s : string) (acc : string) : option (string * string) :=
  match s with
  | EmptyString => None
  | String c s' =>
      if Ascii.eqb c Str.dq then Some (String.rev acc, s')
      else if Ascii.eqb c "\" then
        match s' with
        | EmptyString => None
        | String e s'' =>
            if Ascii.eqb e "u" then
              match s'' with
              | String h1 (String h2 (String h3 (String h4 r))) =>
                  match hex4 h1 h2 h3 h4 with
                  | Some n =>
                      if (n <? 128)%nat then scan_string r (String (ascii_of_nat n) acc)
                      else None
                  | None => None
                  end
              | _ => None
              end
            else
              match unescape e with
              | Some d => scan_string s'' (String d acc)
              | None => None
              end
        end
      else if (nat_of_ascii c <? 32)%nat then None
      else scan_string s' (String c acc)
  end.

Definition digit_value (c : ascii) : option Z :=
  let n := nat_of_ascii c in
  if ((48 <=? n) && (n <=? 57))%nat then Some (Z.of_nat (n - 48)) else None.

Fixpoint scan_digits (s : string) (acc : Z) : Z * string :=
  match s with
  | String c s' =>
      match digit_value c with
      | Some d => scan_digits s' (acc * 10 + d)%Z
      | None => (acc, s)
      end
  | EmptyString => (acc, s)
  end.

(** The integer part of a number: a zero, or digits that start with a
    digit other than zero. *)
Definition scan_natural (s : string) : option (Z * string) :=
  match s with
  | String c s' =>
      match digit_value c with
      | Some d => if (d =? 0)%Z then Some (0%Z, s') else Some (scan_digits s' d)
      | None => None
      end
  | EmptyString => None
  end.

Definition scan_integer (s : string) : option (pyvalue * string) :=
  match s with
  | String "-" s' =>
      match scan_natural s' with
      | Some (z, r) => Some (PInt (- z), r)
      | None => None
      end
  | _ =>
      match scan_natural s with
      | Some (z, r) => Some (PInt z, r)
      | None => None
      end
  end.

Fixpoint scan_value (fuel : nat) (s : string) : option (pyvalue * string) :=
  match fuel with
  | O => None
  | S f =>
      match s with
      | EmptyString => None
      | String c s' =>
          if Ascii.eqb c Str.dq then
            match scan_string s' EmptyString with
            | Some (t, r) => Some (PStr t, r)
            | None => None
            end
          else if Ascii.eqb c "{" then
            match skip_ws s' with
            | String "}" r => Some (PDict [], r)
            | r => scan_members f r []
            end
          else if Ascii.eqb c "[" then
            match skip_ws s' with
            | String "]" r => Some (PList [], r)
            | r => scan_elements f r []
            end
          else if String.prefix "null" s then Some (PNone, Str.drop 4 s)
          else if String.prefix "true" s then Some (PBool true, Str.drop 4 s)
          else if String.prefix "false" s then Some (PBool false, Str.drop 5 s)
          else scan_integer s
      end
  end
with scan_elements (fuel : nat) (s : string) (acc : list pyvalue) : option (pyvalue * string) :=
  match fuel with
  | O => None
  | S f =>
      match scan_value f s with
      | Some (v, r) =>
          match skip_ws r with
          | String c r' =>
              if Ascii.eqb c "]" then Some (PList (acc ++ [v]), r')
              else if Ascii.eqb c "," then scan_elements f (skip_ws r') (acc ++ [v])
              else None
          | EmptyString => None
          end
      | None => None
      end
  end
with scan_members (fuel : nat) (s : string) (acc : pydict) : option (pyvalue * string) :=
  match fuel with
  | O => None
  | S f =>
      match s with
      | String q s' =>
          if Ascii.eqb q Str.dq then
            match scan_string s' EmptyString with
            | Some (k, r) =>
                match skip_ws r with
                | String ":" r1 =>
                    match scan_value f (skip_ws r1) with
                    | Some (v, r2) =>
                        match skip_ws r2 with
                        | String c r3 =>
                            if Ascii.eqb c "}" then Some (PDict (dict_set acc k v), r3)
                            else if Ascii.eqb c "," then scan_members f (skip_ws r3) (dict_set acc k v)
                            else None
                        | EmptyString => None
                        end
                    | None => None
                    end
                | _ => None
                end
            | None => None
            end
          else None
      | EmptyString => None
      end
  end.

(** [json.loads]: one value, white space around it, nothing else. *)
Definition loads (s : string) : option pyvalue :=
  match scan_value (2 * String.length s + 2) (skip_ws s) with
  | Some (v, r) => match skip_ws r with EmptyString => Some v | _ => None end
  | None => None
  end.

End JsonDecoder.

(** ** Exceptions without state *)

Definition res_bind {A B} (r : res A) (k : A -> res B) : res B :=
  match r with
  | Ok a => k a
  | Raise e => Raise e
  end.

Fixpoint res_map {A B} (f : A -> res B) (l : list A) : res (list B) :=
  match l with
  | [] => Ok []
  | x :: l' =>
      res_bind (f x) (fun y => res_bind (res_map f l') (fun ys => Ok (y :: ys)))
  end.

Definition lift {A} (r : res A) : M A := fun st => (r, st).

(** How an iteration of the retry loop ends. *)
Inductive loop_exit (A : Type) : Type :=
| Return (a : A)
| Continue.
Arguments Return {A} a.
Arguments Continue {A}.

(** ** The pipeline, over a JSON decoder *)

Section Pipeline.

(** [json.loads]; [None] is [json.JSONDecodeError]. *)
Variable json_loads : string -> option pyvalue.

(** *** Response recovery parser *)

(** [for i in range(len(content), 0, -1)], from [i] down. *)
Fixpoint find_last_complete_json_from (i : nat) (content : string) : option string :=
  match i with
  | O => None
  | S j =>
      let test_content := Str.take i content in
      match json_loads test_content with
      | Some _ => Some test_content
      | None => find_last_complete_json_from j content
      end
  end.

Definition find_last_complete_json (content : string) : option string :=
  find_last_complete_json_from (String.length content) content.

Definition extract_json_objects (content : string) : list pyvalue :=
  let matches := findall_objects content in
  omap (fun m =>
          match json_loads m with
          | Some (PDict d) =>
              if truthy (dict_get d "software" PNone) then Some (PDict d) else None
          | _ => None
          end) matches.

(** The four [try] blocks.  Each gives the value it returns, or [None]
    when control leaves the block without a [return]: the exception was
    caught, or no [return] was reached. *)

(** Strategy 1: direct parsing. *)
Definition direct_parsing (content : string) : option pyvalue :=
  json_loads content.

(** Strategy 2: fix common JSON issues. *)
Definition fix_common_issues (content : string) : option pyvalue :=
  let fixed_content := remove_trailing_commas content in
  let quote := String Str.dq EmptyString in
  let quote_count :=
    (Z.of_nat (Str.count fixed_content quote)
     - Z.of_nat (Str.count fixed_content (String "\" quote)))%Z in
  let unmatched :=
    Str.contains quote fixed_content && negb (quote_count mod 2 =? 0)%Z in
  match (if unmatched then find_last_complete_json fixed_content else None) with
  | Some last_complete =>
      if nonempty last_complete then json_loads last_complete
      else json_loads fixed_content
  | None => json_loads fixed_content
  end.

(** Strategy 3: extract just the array part. *)
Definition extract_array_part (content : string) : option pyvalue :=
  match search_array content with
  | Some array_content => json_loads array_content
  | None => None
  end.

(** Strategy 4: parse partial content. *)
Definition parse_partial_content (content : string) : option pyvalue :=
  match extract_json_objects content with
  | [] => None
  | objects => Some (PList objects)
  end.

Definition parse_json_with_recovery (content : string) : res pyvalue :=
  match direct_parsing content with
  | Some v => Ok v
  | None =>
      match fix_common_issues content with
      | Some v => Ok v
      | None =>
          match extract_array_part content with
          | Some v => Ok v
          | None =>
              match parse_partial_content content with
              | Some v => Ok v
              | None => Raise JSONDecodeError
              end
          end
      end
  end.

(** *** Extraction client *)

Definition max_retries : nat := 3.

Definition fence : string := "```".

(** The clean-up of the response before it is parsed.  An index out of
    range is an [IndexError]. *)
Definition clean_response (content : string) : res string :=
  let between (marker : string) :=
    match Str.split content marker !! 1%nat with
    | Some after =>
        match Str.split after fence !! 0%nat with
        | Some inside => Ok inside
        | None => Raise OtherException
        end
    | None => Raise OtherException
    end in
  if Str.startswith content (fence +:+ "json") then between (fence +:+ "json")
  else if Str.startswith content fence then between fence
  else Ok content.

(** [for item in extracted_data]: what iterating the decoded value
    yields; a value that cannot be iterated is a [TypeError]. *)
Fixpoint chars (s : string) : list pyvalue :=
  match s with
  | EmptyString => []
  | String c s' => PStr (String c EmptyString) :: chars s'
  end.

Definition iterate (v : pyvalue) : res (list pyvalue) :=
  match v with
  | PList l => Ok l
  | PDict d => Ok (map (fun kv => PStr (fst kv)) d)
  | PStr s => Ok (chars s)
  | _ => Raise OtherException
  end.

(** The body of that loop: the note on a year that does not fit the
    round, then the record.  An item without [get] is an
    [AttributeError]. *)
Definition note_year_mismatch (round_num : string) (item : pydict) : pydict :=
  let contract_year := str (dict_get item "contract_start_year" (PStr "")) in
  if nonempty contract_year && negb (validate_round_year round_num contract_year)
  then dict_set item "misc_notes"
         (PStr (Str.strip (str (dict_get item "misc_notes" (PStr ""))
                           +:+ " [Year-Round mismatch noted]")))
  else item.

Definition make_record (district round_num pdf_name : string) (page_num : nat)
    (item : pyvalue) : res SoftwareRecord :=
  match item with
  | PDict d =>
      let item := note_year_mismatch round_num d in
      Ok {| district := PStr district;
            round := PStr round_num;
            source_file := PStr pdf_name;
            page_number := PStr (pretty (page_num + 1)%nat);
            software := dict_get item "software" (PStr "");
            vendor := dict_get item "vendor" (PStr "");
            school_name := dict_get item "school_name" (PStr "");
            approx_level := dict_get item "approx_level" (PStr "");
            use_type := dict_get item "use_type" (PStr "");
            host_type := dict_get item "host_type" (PStr "");
            num_school_lic := PStr (str (dict_get item "num_school_lic" (PStr "")));
            num_district_lic := PStr (str (dict_get item "num_district_lic" (PStr "")));
            cost_per_lic := PStr (str (dict_get item "cost_per_lic" (PStr "")));
            cost_total := PStr (str (dict_get item "cost_total" (PStr "")));
            contract_start_month := dict_get item "contract_start_month" (PStr "");
            contract_start_year := PStr (str (dict_get item "contract_start_year" (PStr "")));
            contract_length_years := PStr (str (dict_get item "contract_length_years" (PStr "")));
            install_month := dict_get item "install_month" (PStr "");
            install_year := PStr (str (dict_get item "install_year" (PStr "")));
            quote_month := dict_get item "quote_month" (PStr "");
            quote_year := PStr (str (dict_get item "quote_year" (PStr "")));
            misc_notes := dict_get item "misc_notes" (PStr "") |}
  | _ => Raise OtherException
  end.

(** The inner [try] of an attempt: clean-up, recovery, records. *)
Definition parse_response (content district round_num pdf_name : string) (page_num : nat)
  : M (list SoftwareRecord) :=
  content <-- lift (clean_response content) ;;
  let content := Str.strip content in
  extracted_data <-- lift (parse_json_with_recovery content) ;;
  items <-- lift (iterate extracted_data) ;;
  records <-- lift (res_map (make_record district round_num pdf_name page_num) items) ;;
  modify (set_stats (add_software_records_extracted (length records))) ;;;
  ret records.

(** One iteration of [for attempt in range(max_retries)]: how it ends,
    and [retry_delay] after it. *)
Definition attempt_once (post : nat -> post_result)
    (district round_num pdf_name : string) (page_num attempt : nat) (retry_delay : Q)
  : M (loop_exit (list SoftwareRecord) * Q) :=
  let last_attempt := (attempt =? max_retries - 1)%nat in
  let give_up_or (retry : M (loop_exit (list SoftwareRecord) * Q)) :=
    if last_attempt
    then modify (set_stats incr_errors_encountered) ;;; ret (Return [], retry_delay)
    else retry in
  let sleep_and_retry :=
    modify (emit (EvSleep retry_delay)) ;;; ret (Continue, Qred (retry_delay * 1.5)) in
  try_except
    (modify (set_stats incr_api_calls_made) ;;;
     modify (emit (EvPost pdf_name page_num attempt)) ;;;
     content <-- lift (match post attempt with
                       | Response c => Ok c
                       | PostRaises e => Raise e
                       end) ;;
     let content := Str.strip content in
     try_except
       (records <-- parse_response content district round_num pdf_name page_num ;;
        ret (Return records, retry_delay))
       (fun e => match e with JSONDecodeError => true | _ => false end)
       (fun _ => give_up_or (ret (Continue, retry_delay))))
    is_Exception
    (fun e =>
       match e with
       | RequestException => give_up_or sleep_and_retry
       | _ => give_up_or sleep_and_retry
       end).

(** The loop, with [n] iterations left. *)
Fixpoint retry_loop (post : nat -> post_result)
    (district round_num pdf_name : string) (page_num : nat)
    (n attempt : nat) (retry_delay : Q) : M (list SoftwareRecord) :=
  match n with
  | O => modify (set_stats incr_errors_encountered) ;;; ret []
  | S n' =>
      r <-- attempt_once post district round_num pdf_name page_num attempt retry_delay ;;
      match r with
      | (Return records, _) => ret records
      | (Continue, retry_delay') =>
          retry_loop post district round_num pdf_name page_num n' (S attempt) retry_delay'
      end
  end.

Definition analyze_page_with_gpt (post : nat -> post_result)
    (image_bytes text_content district round_num pdf_name : string) (page_num : nat)
  : M (list SoftwareRecord) :=
  if negb (nonempty image_bytes) then ret []
  else retry_loop post district round_num pdf_name page_num max_retries 0 2.

(** *** Page content extractor *)

(** Any failure inside gives the empty pair. *)
Definition extract_page_content (pdf : Pdf) (page : Page) (page_num : nat)
  : M (string * string) :=
  modify (emit (EvExtract (pdf_path pdf) page_num)) ;;;
  ret (match page_render page with
       | Some (img_bytes, text) => (img_bytes, text)
       | None => (EmptyString, EmptyString)
       end).

(** *** process_pdf *)

(** [fitz.open], [len(doc)], [doc.close()]. *)
Definition open_document (pdf : Pdf) : M (list Page) :=
  modify (emit (EvOpen (pdf_path pdf))) ;;;
  match pdf_pages pdf with
  | Some pages => ret pages
  | None => raise OtherException
  end.

(** [for page_num in range(total_pages)], from [page_num] on; [pages]
    are the pages still to do. *)
Fixpoint process_pages (pdf : Pdf) (district round_num : string)
    (pages : list Page) (page_num : nat) (all_records : list SoftwareRecord)
  : M (list SoftwareRecord) :=
  match pages with
  | [] => ret all_records
  | page :: pages' =>
      content <-- extract_page_content pdf page page_num ;;
      let '(image_bytes, text_content) := content in
      all_records <--
        (if nonempty image_bytes then
           records <-- analyze_page_with_gpt (page_post page) image_bytes text_content
                         district round_num (pdf_name pdf) page_num ;;
           ret (all_records ++ records)%list
         else ret all_records) ;;
      modify (set_stats incr_pages_analyzed) ;;;
      modify (emit (EvSleep 1.5)) ;;;
      process_pages pdf district round_num pages' (S page_num) all_records
  end.

Definition process_pdf (pdf : Pdf) (district round_num : string) : M (list SoftwareRecord) :=
  already <-- is_pdf_already_processed (pdf_name pdf) district round_num ;;
  if (already : bool) then ret []
  else
    try_except
      (pages <-- open_document pdf ;;
       all_records <-- process_pages pdf district round_num pages 0 [] ;;
       modify (set_stats incr_pdfs_processed) ;;;
       mark_pdf_as_processed (pdf_name pdf) district round_num ;;;
       ret all_records)
      is_Exception
      (fun _ => modify (set_stats incr_errors_encountered) ;;; ret []).

(** *** Batch orchestrator *)

(** [list.sort(key=...)] and [sorted]: stable. *)
Fixpoint insert_by {A} (le : A -> A -> bool) (x : A) (l : list A) : list A :=
  match l with
  | [] => [x]
  | y :: l' => if le x y then x :: l else y :: insert_by le x l'
  end.

Definition sort_by {A} (le : A -> A -> bool) (l : list A) : list A :=
  foldr (insert_by le) [] l.

Definition page_count (pdf : Pdf) : nat :=
  match pdf_pages pdf with
  | Some pages => length pages
  | None => 0
  end.

(** [if limit: l = l[:limit]]. *)
Definition apply_limit {A} (limit : option nat) (l : list A) : list A :=
  match limit with
  | Some (S n) => take (S n) l
  | _ => l
  end.

Definition get_pdfs_sorted_by_page_count (folder : Folder) (limit : option nat) : list Pdf :=
  let sorted_pdfs := sort_by (fun p q => (page_count p <=? page_count q)%nat) (folder_pdfs folder) in
  apply_limit limit sorted_pdfs.

Definition write_detailed_csv (records : list SoftwareRecord) (main append_mode : bool) : M unit :=
  match records with
  | [] => ret tt
  | _ =>
      modify (emit (EvWriteRows main (length records))) ;;;
      if main then
        modify (fun st =>
          match main_csv_file st with
          | Some rows => if append_mode then set_main_csv_file (Some (rows ++ records)%list) st
                         else set_main_csv_file (Some records) st
          | None => set_main_csv_file (Some records) st
          end)
      else modify (add_timestamped_file records)
  end.

Definition save_intermediate_results (records : list SoftwareRecord) : M unit :=
  write_detailed_csv records false false ;;;
  write_detailed_csv records true true ;;;
  save_processed_pdfs.

Definition save_final_results (records : list SoftwareRecord) : M unit :=
  write_detailed_csv records false false ;;;
  write_detailed_csv records true true ;;;
  save_processed_pdfs.

(** [for pdf_file in pdf_files]. *)
Fixpoint process_round (pdf_files : list Pdf) (district round_num : string)
    (all_records : list SoftwareRecord) : M (list SoftwareRecord) :=
  match pdf_files with
  | [] => ret all_records
  | pdf_file :: rest =>
      records <-- process_pdf pdf_file district round_num ;;
      process_round rest district round_num (all_records ++ records)%list
  end.

(** [for round_num in ['1', '2', '3', '4']]. *)
Fixpoint process_rounds (round_folders : gmap string Folder) (limit_pdfs_per_round : option nat)
    (district : string) (rounds : list string) (all_records : list SoftwareRecord)
  : M (list SoftwareRecord) :=
  match rounds with
  | [] => ret all_records
  | round_num :: rounds' =>
      all_records <--
        match round_folders !! round_num with
        | Some folder_path =>
            let pdf_files := get_pdfs_sorted_by_page_count folder_path limit_pdfs_per_round in
            process_round pdf_files district round_num all_records
        | None => ret all_records
        end ;;
      process_rounds round_folders limit_pdfs_per_round district rounds' all_records
  end.

(** [for district_folder in sorted(district_folders)].  The rows of the
    district summary are written to files of their own and are left
    out. *)
Fixpoint process_districts (district_folders : list District) (limit_pdfs_per_round : option nat)
    (all_records : list SoftwareRecord) : M (list SoftwareRecord) :=
  match district_folders with
  | [] => ret all_records
  | district_folder :: rest =>
      let round_folders := get_round_folders (Some (district_items district_folder)) in
      all_records <-- process_rounds round_folders limit_pdfs_per_round
                        (district_name district_folder) ["1"; "2"; "3"; "4"] all_records ;;
      modify (set_stats incr_districts_processed) ;;;
      n <-- gets (fun st => districts_processed (stats st)) ;;
      (if (n mod 5 =? 0)%nat then save_intermediate_results all_records else ret tt) ;;;
      process_districts rest limit_pdfs_per_round all_records
  end.

Definition sorted_districts (l : list District) : list District :=
  sort_by (fun d e => String.leb (district_name d) (district_name e)) l.

(** [process_all_districts] called without [district_names]; [base_dir]
    is what [iterdir] yields for [RA_tasks_2025]. *)
Definition process_all_districts (base_dir : list District)
    (limit_districts limit_pdfs_per_round : option nat) : M unit :=
  let all_district_folders :=
    filter (fun d => district_is_dir d = true
                     ∧ district_name d ∉ [".DS_Store"; "__pycache__"]) base_dir in
  let district_folders :=
    match limit_districts with
    | Some (S n) => take (S n) (sorted_districts all_district_folders)
    | _ => all_district_folders
    end in
  all_records <-- process_districts (sorted_districts district_folders)
                    limit_pdfs_per_round [] ;;
  save_final_results all_records.

End Pipeline.

(** A new process on the files the previous one left: [__init__] again. *)
Definition restart (st : Analyzer) : Analyzer :=
  mkAnalyzer (load_processed_pdfs (processed_pdfs_file st)) stats0
             (processed_pdfs_file st) (main_csv_file st) (timestamped_files st) [].

(** ** Notions used in the statements *)

(** What the tracking file lacks is never more than the size of the set
    modulo 5. *)
Definition tracker_inv (st : Analyzer) : Prop :=
  load_processed_pdfs (processed_pdfs_file st) ⊆ processed_pdfs st
  ∧ (size (unsaved st) ≤ size (processed_pdfs st) mod 5)%nat.

(** [st'] differs from [st] in its counters, which are [s], and in the
    events [evs] added to the trace. *)
Definition advanced (st : Analyzer) (s : Stats) (evs : list Event) : Analyzer :=
  mkAnalyzer (processed_pdfs st) s (processed_pdfs_file st)
             (main_csv_file st) (timestamped_files st) (trace st ++ evs)%list.

(** What [extract_page_content] returns for a page. *)
Definition page_content (page : Page) : string * string :=
  match page_render page with
  | Some (img_bytes, text) => (img_bytes, text)
  | None => (EmptyString, EmptyString)
  end.

(** Recovery as the specification has it, the clean-up of the response
    included: what the inner [try] of an attempt decodes from the
    stripped response [content]. *)
Definition recover (json_loads : string -> option pyvalue) (content : string) : res pyvalue :=
  res_bind (clean_response content) (fun cleaned =>
  parse_json_with_recovery json_loads (Str.strip cleaned)).

(** The inner [try] of an attempt without the counters: the records, or
    the exception that leaves it. *)
Definition parse_records (json_loads : string -> option pyvalue)
    (content district round_num pdf_name : string) (page_num : nat)
  : res (list SoftwareRecord) :=
  res_bind (recover json_loads content) (fun extracted_data =>
  res_bind (iterate extracted_data) (fun items =>
  res_map (make_record district round_num pdf_name page_num) items)).



(** [c in s]. *)
Fixpoint has_char (c : ascii) (s : string) : bool :=
  match s with
  | EmptyString => false
  | String d s' => Ascii.eqb d c || has_char c s'
  end.




(** The fields of a record that come from the dictionary, by the key
    they are read from: those passed through [str], and the others. *)
Definition numeric_keys : list string :=
  [ "num_school_lic"; "num_district_lic"; "cost_per_lic"; "cost_total";
    "contract_start_year"; "contract_length_years"; "install_year"; "quote_year" ].

Definition text_keys : list string :=
  [ "software"; "vendor"; "school_name"; "approx_level"; "use_type"; "host_type";
    "contract_start_month"; "install_month"; "quote_month"; "misc_notes" ].

Definition record_field (key : string) (r : SoftwareRecord) : option pyvalue :=
  dict_lookup
    [ ("software", software r); ("vendor", vendor r); ("school_name", school_name r);
      ("approx_level", approx_level r); ("use_type", use_type r);
      ("host_type", host_type r); ("num_school_lic", num_school_lic r);
      ("num_district_lic", num_district_lic r); ("cost_per_lic", cost_per_lic r);
      ("cost_total", cost_total r); ("contract_start_month", contract_start_month r);
      ("contract_start_year", contract_start_year r);
      ("contract_length_years", contract_length_years r);
      ("install_month", install_month r); ("install_year", install_year r);
      ("quote_month", quote_month r); ("quote_year", quote_year r);
      ("misc_notes", misc_notes r) ]
    key.

(** C9 as the specification words it: every field of every record
    built from a dictionary is a string. *)
Definition all_fields_strings_as_stated : Prop :=
  ∀ (district round_num pdf_name : string) (page_num : nat)
    (item : pydict) (record : SoftwareRecord),
    make_record district round_num pdf_name page_num (PDict item) = Ok record →
    Forall (fun kv => is_str kv.2 = true) (to_dict record).


(** The three failure classes of an attempt. *)
Inductive failure_class : Type :=
| Transport        (* a RequestException *)
| MalformedJSON    (* the recovery parser gives up on the response *)
| Unexpected.      (* any other Exception *)

Inductive attempt_outcome : Type :=
| Succeeds (records : list SoftwareRecord)
| Fails (f : failure_class)
| Interrupted.

(** What an attempt that gets [p] from the service comes to. *)
Definition classify (json_loads : string -> option pyvalue) (p : post_result)
    (district round_num pdf_name : string) (page_num : nat) : attempt_outcome :=
  match p with
  | PostRaises RequestException => Fails Transport
  | PostRaises KeyboardInterrupt => Interrupted
  | PostRaises _ => Fails Unexpected
  | Response content =>
      match parse_records json_loads (Str.strip content) district round_num pdf_name page_num with
      | Ok records => Succeeds records
      | Raise JSONDecodeError => Fails MalformedJSON
      | Raise KeyboardInterrupt => Interrupted
      | Raise _ => Fails Unexpected
      end
  end.

(** The seconds slept, in order. *)
Definition sleeps (tr : list Event) : list Q :=
  omap (fun e => match e with EvSleep d => Some d | _ => None end) tr.

Definition is_post (e : Event) : bool :=
  match e with EvPost _ _ _ => true | _ => false end.

Definition posts (tr : list Event) : nat := length (filter is_post tr).

(** The pages handed to [extract_page_content], and the files handed to
    [fitz.open] by [process_pdf], in order. *)
Definition extracted_pages (tr : list Event) : list (string * nat) :=
  omap (fun e => match e with EvExtract p n => Some (p, n) | _ => None end) tr.

Definition opened (tr : list Event) : list string :=
  omap (fun e => match e with EvOpen p => Some p | _ => None end) tr.

(** The events of a run: what [st'] has after the trace of [st]. *)
Definition events_since (st st' : Analyzer) : list Event :=
  drop (length (trace st)) (trace st').

(** The sleeps of the retry loop as the code has them, for the outcomes
    of the attempts from [attempt] on: a transport failure or an
    unexpected exception that is not the last attempt sleeps for the
    current delay and multiplies it by 1.5; a malformed response does
    neither. *)
Fixpoint retry_sleeps (outcomes : list attempt_outcome) (attempt : nat) (retry_delay : Q)
  : list Q :=
  match outcomes with
  | Fails f :: rest =>
      if (attempt =? max_retries - 1)%nat then []
      else
        match f with
        | MalformedJSON => retry_sleeps rest (S attempt) retry_delay
        | _ => retry_delay :: retry_sleeps rest (S attempt) (Qred (retry_delay * 1.5))
        end
  | _ => []
  end.

(** C3 as the specification words it: whatever the classes of the
    failures, there is a sleep before each retry, of 2 seconds and then
    of 3. *)
Definition uniform_backoff_as_stated : Prop :=
  ∀ (json_loads : string -> option pyvalue) (post : nat -> post_result)
    (image_bytes text_content district round_num pdf_name : string)
    (page_num : nat) (st : Analyzer),
    nonempty image_bytes = true →
    (∀ attempt, (attempt < max_retries)%nat →
       ∃ f, classify json_loads (post attempt) district round_num pdf_name page_num = Fails f) →
    sleeps (events_since st
              (analyze_page_with_gpt json_loads post image_bytes text_content
                 district round_num pdf_name page_num st).2)
    = [2%Q; 3%Q].

(** ** Concrete inputs *)

(** Six PDFs of one round folder. *)
Definition six_keys : list pdf_key :=
  [ ("a.pdf", "Agawam", "1"); ("b.pdf", "Agawam", "1"); ("c.pdf", "Agawam", "1");
    ("d.pdf", "Agawam", "1"); ("e.pdf", "Agawam", "1"); ("f.pdf", "Agawam", "1") ].

(** A service that answers every call with text that is not JSON, and
    one that cannot be reached. *)
Definition post_garbage : nat -> post_result := fun _ => Response "no software here".

Definition post_unreachable : nat -> post_result := fun _ => PostRaises RequestException.

(** The scenario of the specification: district Lincoln, folder R1, one
    PDF of two pages; the first page gives one record, the second an
    empty array. *)
Definition reading_plus_response : string :=
  Str.py "[{'software': 'Reading Plus', 'vendor': 'Reading Plus Inc', 'cost_total': '1200.00'}]".

Definition lincoln_pdf : Pdf :=
  mkPdf "RA_tasks_2025/Lincoln/R1/invoice.pdf" "invoice.pdf"
    (Some [ mkPage (Some ("png", "Reading Plus")) (fun _ => Response reading_plus_response);
            mkPage (Some ("png", "")) (fun _ => Response "[]") ]).

(** A file that [fitz.open] rejects. *)
Definition broken_pdf : Pdf :=
  mkPdf "RA_tasks_2025/Lincoln/R1/broken.pdf" "broken.pdf" None.

(** A PDF during whose second page the user interrupts the run. *)
Definition interrupted_pdf : Pdf :=
  mkPdf "RA_tasks_2025/Lincoln/R1/long.pdf" "long.pdf"
    (Some [ mkPage (Some ("png", "")) (fun _ => Response "[]");
            mkPage (Some ("png", "")) (fun _ => PostRaises KeyboardInterrupt);
            mkPage (Some ("png", "")) (fun _ => Response "[]") ]).

(** Two folders of one district that both name round 1. *)
Definition folder_R1 : Folder := mkFolder "R1" true [].

Definition folder_Round_1 : Folder := mkFolder "Round 1" true [].

(** Six districts, each with the folder R1 and one PDF of one page in
    it that gives one record. *)
Definition one_record_response (name : string) : string :=
  Str.py "[{'software': '" +:+ name +:+ Str.py "'}]".

Definition one_page_pdf (district name : string) (post : nat -> post_result) : Pdf :=
  mkPdf ("RA_tasks_2025/" +:+ district +:+ "/R1/" +:+ name) name
        (Some [mkPage (Some ("png", "")) post]).

Definition small_district (name : string) (post : nat -> post_result) : District :=
  mkDistrict name true [mkFolder "R1" true [one_page_pdf name "list.pdf" post]].

Definition answering (name : string) : nat -> post_result :=
  fun _ => Response (one_record_response name).

Definition five_districts : list District :=
  [ small_district "Agawam" (answering "Agawam");
    small_district "Canton" (answering "Canton");
    small_district "Douglas" (answering "Douglas");
    small_district "Easton" (answering "Easton");
    small_district "Franklin" (answering "Franklin") ].

Definition six_districts : list District :=
  five_districts ++ [small_district "Granby" (answering "Granby")].

(** The same tree on a day when the user interrupts the run during the
    page of the sixth district. *)
Definition six_districts_interrupted : list District :=
  five_districts ++ [small_district "Granby" (fun _ => PostRaises KeyboardInterrupt)].

(** The rows of the main table, or none when the file is not there. *)
Definition main_table (st : Analyzer) : list SoftwareRecord :=
  match main_csv_file st with
  | Some rows => rows
  | None => []
  end.

(** One run of the whole batch without limits, in a new process, on the
    files [st] left. *)
Definition full_run (base_dir : list District) (st : Analyzer) : Analyzer :=
  (process_all_districts JsonDecoder.loads base_dir None None (restart st)).2.

Definition software_names (rows : list SoftwareRecord) : list pyvalue :=
  map software rows.







(** ** Further methods of the analyzer *)

(** [count_pdf_pages_in_folder]: a file that cannot be opened adds
    nothing. *)
Definition count_pdf_pages_in_folder (folder : Folder) : nat :=
  foldl (fun total_pages pdf_file => (total_pages + page_count pdf_file)%nat) 0%nat
        (folder_pdfs folder).

Definition get_available_districts (base_dir : list District) : list string :=
  sort_by String.leb
    (district_name <$>
       filter (fun item => district_is_dir item = true
                           ∧ district_name item ∉ [".DS_Store"; "__pycache__"]) base_dir).

(** The matches of one target name: the exact ones if there are any,
    the partial ones otherwise; both compare lower case. *)
Definition exact_matches (target_name : string) (all_districts : list District)
  : list District :=
  filter (fun d => Str.lower (district_name d) = Str.lower target_name) all_districts.

Definition partial_matches (target_name : string) (all_districts : list District)
  : list District :=
  filter (fun d => Str.contains (Str.lower target_name) (Str.lower (district_name d)) = true)
    all_districts.

Definition matches_of (target_name : string) (all_districts : list District)
  : list District :=
  match exact_matches target_name all_districts with
  | [] => partial_matches target_name all_districts
  | found => found
  end.

(** The loop that removes duplicates and keeps the order.  The entries
    of one directory are told apart by their names, so the set [seen]
    of paths is a set of names. *)
Fixpoint unique_districts (seen : gset string) (l : list District) : list District :=
  match l with
  | [] => []
  | d :: l' =>
      if bool_decide (district_name d ∈ seen) then unique_districts seen l'
      else d :: unique_districts (seen ∪ {[district_name d]}) l'
  end.

(** [district_names] empty stands for both [None] and the empty list. *)
Definition filter_districts_by_name (district_names : list string)
    (all_districts : list District) : list District :=
  match district_names with
  | [] => all_districts
  | _ =>
      unique_districts ∅
        (concat (map (fun target_name => matches_of target_name all_districts)
                     district_names))
  end.

(** [process_all_districts] with its third argument.  With names given
    and no district found for them the method returns at once. *)
Definition process_all_districts_named (json_loads : string -> option pyvalue)
    (base_dir : list District) (limit_districts limit_pdfs_per_round : option nat)
    (district_names : list string) : M unit :=
  let all_district_folders :=
    filter (fun d => district_is_dir d = true
                     ∧ district_name d ∉ [".DS_Store"; "__pycache__"]) base_dir in
  let run (district_folders : list District) : M unit :=
    let district_folders :=
      match limit_districts with
      | Some (S n) => take (S n) (sorted_districts district_folders)
      | _ => district_folders
      end in
    all_records <-- process_districts json_loads (sorted_districts district_folders)
                      limit_pdfs_per_round [] ;;
    save_final_results all_records in
  match district_names with
  | [] => run all_district_folders
  | _ =>
      match filter_districts_by_name district_names all_district_folders with
      | [] => ret tt
      | district_folders => run district_folders
      end
  end.

(** The command line: what [parse_arguments] returns.  [districts] is
    empty when the option is not given; the
    fields are the attributes of [args]. *)
Record Args : Type := mkArgs {
  arg_districts : list string;
  arg_list_districts : bool;
  arg_full_run : bool;
  arg_limit_districts : nat;      (* default 3 *)
  arg_limit_pdfs : nat;           (* default 10000 *)
  arg_status : bool;
  arg_clear_tracking : bool
}.


(** [main].  [api_key] says whether OPENAI_API_KEY is set: without it
    the constructor raises.  The constructor reads the tracking file,
    which is [restart] on the files of the state. *)
Definition main (json_loads : string -> option pyvalue) (api_key : bool)
    (args : Args) (base_dir : list District) : M unit :=
  try_except
    ((if api_key then modify restart else raise OtherException) ;;;
     if arg_list_districts args then ret tt
     else if arg_status args then ret tt
     else if arg_clear_tracking args then clear_tracking_file
     else
       let '(limit_districts, limit_pdfs) :=
         if arg_full_run args then (None, None)
         else ((match arg_districts args with
                | [] => Some (arg_limit_districts args)
                | _ => None
                end),
               Some (arg_limit_pdfs args)) in
       process_all_districts_named json_loads base_dir limit_districts limit_pdfs
         (arg_districts args))
    (fun _ => true)
    (fun _ => ret tt).

(** The column names of the detailed table, as [write_detailed_csv]
    lists them. *)
Definition fieldnames : list string :=
  [ "District"; "School_Name"; "Approx_Level"; "Software"; "Vendor";
    "Use_Type"; "Host_Type"; "Num_School_LIC"; "Num_District_LIC";
    "Cost_per_LIC"; "Cost_total"; "Contract_StartMonth"; "Contract_StartYear";
    "Contract_Length_Years"; "Install_Month"; "Install_Year";
    "Quote_Month"; "Quote_Year"; "Misc_Notes"; "Round";
    "Source_File"; "Page_Number" ].

(** ** Notions used in the further statements *)

(** The PDFs a run passes to [process_pdf] for one district, in order:
    those of the folders of rounds 1 to 4. *)
Definition round_tokens : list string := ["1"; "2"; "3"; "4"].

(** The entries of a district that a run can read: the directories
    whose names are those of one of these rounds. *)
Definition is_round_1_to_4 (item : Folder) : bool :=
  folder_is_dir item
  && match normalize_round_name (folder_name item) with
     | Some round_num => bool_decide (round_num ∈ round_tokens)
     | None => false
     end.

Definition only_rounds_1_to_4 (district_folder : District) : District :=
  mkDistrict (district_name district_folder) (district_is_dir district_folder)
    (filter (fun item => is_round_1_to_4 item = true) (district_items district_folder)).

(** Every character of [s] is white space. *)
Definition all_isspace (s : string) : bool :=
  forallb Str.isspace (list_ascii_of_string s).

(** The files that hold rows are the same in [st] and [st']. *)
Definition same_tables (st st' : Analyzer) : Prop :=
  main_csv_file st' = main_csv_file st
  ∧ timestamped_files st' = timestamped_files st.

(** A PDF none of whose pages can be rendered. *)
Definition unrenderable_pdf : Pdf :=
  mkPdf "RA_tasks_2025/Lincoln/R1/scan.pdf" "scan.pdf"
    (Some [mkPage None (fun _ => Response "[]"); mkPage None (fun _ => Response "[]")]).

(** The invoice of the scenario once more, in a subfolder of the same
    round folder. *)
Definition lincoln_pdf_copy : Pdf :=
  mkPdf "RA_tasks_2025/Lincoln/R1/old/invoice.pdf" "invoice.pdf" (pdf_pages lincoln_pdf).

(** A service that cannot be reached at the first call, answers the
    second with text that is not JSON, and then answers. *)
Definition post_recovering : nat -> post_result :=
  fun attempt =>
    match attempt with
    | 0%nat => PostRaises RequestException
    | 1%nat => Response "no software here"
    | _ => Response reading_plus_response
    end.

(** [st'] keeps what [st] has on record: the rows of the main table
    and the timestamped files are still there, in their places, the
    processed set has lost nothing, and the tracking file is the one of
    [st] or a later copy of the set. *)
Definition keeps (st st' : Analyzer) : Prop :=
  main_table st `prefix_of` main_table st'
  ∧ timestamped_files st `prefix_of` timestamped_files st'
  ∧ processed_pdfs st ⊆ processed_pdfs st'
  ∧ (processed_pdfs_file st' = processed_pdfs_file st
     ∨ ∃ ids, processed_pdfs_file st' = Tracker ids
              ∧ processed_pdfs st ⊆ ids ∧ ids ⊆ processed_pdfs st').

(** ** Notions of the statements on marking and on records *)

(** The first request made for a page: file name and page number, in
    the order of the requests. *)
Definition first_requests (tr : list Event) : list (string * nat) :=
  omap (fun e => match e with EvPost f n 0 => Some (f, n) | _ => None end) tr.

(** The numbers of the pages, counted from [page_num], for which
    [extract_page_content] gives an image. *)
Fixpoint rendered_pages (pages : list Page) (page_num : nat) : list nat :=
  match pages with
  | [] => []
  | page :: pages' =>
      (if nonempty (page_content page).1 then [page_num] else [])
      ++ rendered_pages pages' (S page_num)
  end%list.

(** The test of the client for the note on the year. *)
Definition year_round_mismatch (round_num : string) (item : pydict) : bool :=
  let contract_year := str (dict_get item "contract_start_year" (PStr "")) in
  nonempty contract_year && negb (validate_round_year round_num contract_year).

(** What happens to an analyzer over time: a PDF is handed to
    [process_pdf], the tracking file is saved, or the process ends and
    a new one starts on the files. *)
Inductive run_step : Type :=
| ProcessPdf (pdf : Pdf) (district round_num : string)
| SaveTracker
| NewProcess.

Definition run_step_to (json_loads : string -> option pyvalue) (step : run_step)
    (st : Analyzer) : Analyzer :=
  match step with
  | ProcessPdf pdf district round_num =>
      (process_pdf json_loads pdf district round_num st).2
  | SaveTracker => (save_processed_pdfs st).2
  | NewProcess => restart st
  end.

Definition run_steps (json_loads : string -> option pyvalue) (steps : list run_step)
    (st : Analyzer) : Analyzer :=
  foldl (fun st step => run_step_to json_loads step st) st steps.

(** A step that hands no PDF that opens and has the identifier
    [pdf_id] to [process_pdf]. *)
Definition no_openable_twin (pdf_id : string) (step : run_step) : Prop :=
  match step with
  | ProcessPdf pdf district round_num =>
      pdf_pages pdf = None
      ∨ get_pdf_identifier (pdf_name pdf) district round_num ≠ pdf_id
  | _ => True
  end.

(** The first part of C2 as the specification words it, in a process
    started without a tracking file: a PDF whose identifier is in the
    processed set has had every one of its pages handed to the
    extractor. *)
Definition marked_after_all_pages_as_stated : Prop :=
  ∀ (json_loads : string -> option pyvalue) (calls : list (Pdf * string * string))
    (pdf : Pdf) (pages : list Page) (district round_num : string),
    let st := run_steps json_loads
                (map (fun c => ProcessPdf c.1.1 c.1.2 c.2) calls) (init NoFile None) in
    pdf_pages pdf = Some pages →
    get_pdf_identifier (pdf_name pdf) district round_num ∈ processed_pdfs st →
    ∀ n, (n < length pages)%nat → (pdf_path pdf, n) ∈ extracted_pages (trace st).

(** The end of C10 as the specification words it: whatever else is
    processed, a PDF that cannot be opened is never recorded as
    processed and the next call opens it again. *)
Definition unopenable_never_recorded_as_stated : Prop :=
  ∀ (json_loads : string -> option pyvalue) (steps : list run_step)
    (pdf : Pdf) (district round_num : string),
    let st := run_steps json_loads steps (init NoFile None) in
    pdf_pages pdf = None →
    (get_pdf_identifier (pdf_name pdf) district round_num ∉ processed_pdfs st)
    ∧ opened (events_since st (process_pdf json_loads pdf district round_num st).2)
      = [pdf_path pdf].

(** A file named like the invoice of the scenario that cannot be
    opened, with the invoice itself in a subfolder of the round
    folder. *)
Definition unopenable_invoice : Pdf :=
  mkPdf "RA_tasks_2025/Lincoln/R1/invoice.pdf" "invoice.pdf" None.

Definition twin_district : District :=
  mkDistrict "Lincoln" true [mkFolder "R1" true [unopenable_invoice; lincoln_pdf_copy]].
(** * Properties *)

Open Scope nat_scope.
Open Scope list_scope.
#[local] Arguments Nat.div : simpl never.
#[local] Arguments Nat.modulo : simpl never.

(** ** Reading the state-passing definitions *)

Lemma bind_Ok {A B} (m : M A) (k : A -> M B) st a st' :
  m st = (Ok a, st') -> bind m k st = k a st'.
Proof. intros H. unfold bind. by rewrite H. Qed.

Lemma bind_Raise {A B} (m : M A) (k : A -> M B) st e st' :
  m st = (Raise e, st') -> bind m k st = (Raise e, st').
Proof. intros H. unfold bind. by rewrite H. Qed.

(** ** The tracker *)

Lemma mark_pdf_as_processed_eq pdf d r st :
  let ids := processed_pdfs st ∪ {[get_pdf_identifier pdf d r]} in
  mark_pdf_as_processed pdf d r st =
  (Ok tt,
   if (size ids mod 5 =? 0)%nat
   then mkAnalyzer ids (stats st) (Tracker ids) (main_csv_file st)
                   (timestamped_files st) (trace st ++ [EvSaveTracker ids])
   else mkAnalyzer ids (stats st) (processed_pdfs_file st) (main_csv_file st)
                   (timestamped_files st) (trace st)).
Proof.
  destruct st as [p s f c t tr].
  cbv [mark_pdf_as_processed bind modify gets set_processed_pdfs save_processed_pdfs
       set_processed_pdfs_file emit ret
       processed_pdfs stats processed_pdfs_file main_csv_file timestamped_files trace].
  destruct (size (p ∪ {[get_pdf_identifier pdf d r]}) mod 5 =? 0)%nat; reflexivity.
Qed.

Lemma saves_app tr1 tr2 : saves (tr1 ++ tr2) = (saves tr1 + saves tr2)%nat.
Proof. unfold saves. by rewrite filter_app, length_app. Qed.

Lemma tracker_inv_init tracker csv : tracker_inv (init tracker csv).
Proof.
  unfold tracker_inv, unsaved, init. cbn. split; [done|].
  replace (load_processed_pdfs tracker ∖ load_processed_pdfs tracker)
    with (∅ : gset string) by set_solver.
  rewrite size_empty. lia.
Qed.

Lemma step_quotient (s : nat) :
  (S s / 5 = s / 5 + (if (S s mod 5 =? 0)%nat then 1 else 0))%nat.
Proof.
  pose proof (Nat.div_mod_eq s 5). pose proof (Nat.div_mod_eq (S s) 5).
  pose proof (Nat.mod_upper_bound s 5). pose proof (Nat.mod_upper_bound (S s) 5).
  destruct (Nat.eqb_spec (S s mod 5) 0); lia.
Qed.

Lemma mark_each_fresh (ks : list pdf_key) : ∀ st,
  NoDup (key_identifier <$> ks) →
  (∀ k, k ∈ ks → key_identifier k ∉ processed_pdfs st) →
  tracker_inv st →
  let out := mark_each ks st in
  out.1 = Ok tt
  ∧ processed_pdfs out.2 = processed_pdfs st ∪ list_to_set (key_identifier <$> ks)
  ∧ saves (trace out.2)
    = (saves (trace st) + ((size (processed_pdfs st) + length ks) / 5
                           - size (processed_pdfs st) / 5))%nat
  ∧ tracker_inv out.2.
Proof.
  induction ks as [|k ks IH]; intros st Hnd Hfresh Hinv; cbn.
  - split; [done|]. split; [set_solver|]. split; [|done].
    rewrite Nat.add_0_r. lia.
  - destruct k as [[pdf d] r].
    change (mark_each ((pdf, d, r) :: ks) st)
      with ((mark_pdf_as_processed pdf d r ;;; mark_each ks) st).
    rewrite (bind_Ok _ _ st tt _ (mark_pdf_as_processed_eq pdf d r st)).
    rewrite fmap_cons in Hnd. cbn [fmap list_fmap length list_to_set foldr].
    apply NoDup_cons in Hnd as [Hk Hnd].
    assert (Hnew : get_pdf_identifier pdf d r ∉ processed_pdfs st).
    { apply (Hfresh (pdf, d, r)). left. }
    assert (Hsize : size (processed_pdfs st ∪ {[get_pdf_identifier pdf d r]})
                    = S (size (processed_pdfs st))).
    { rewrite size_union by set_solver. rewrite size_singleton. lia. }
    set (ids := processed_pdfs st ∪ {[get_pdf_identifier pdf d r]}) in *.
    set (st1 := if (size ids mod 5 =? 0)%nat then _ else _).
    assert (Hp1 : processed_pdfs st1 = ids).
    { subst st1. by destruct (size ids mod 5 =? 0)%nat. }
    assert (Hinv1 : tracker_inv st1).
    { destruct Hinv as [Hsub Hle]. unfold tracker_inv, unsaved in *. subst st1.
      destruct (Nat.eqb_spec (size ids mod 5) 0) as [E|E]; cbn.
      - split; [done|]. replace (ids ∖ ids) with (∅ : gset string) by set_solver.
        rewrite size_empty. lia.
      - split; [set_solver|].
        rewrite size_difference in Hle by done.
        rewrite size_difference by set_solver.
        rewrite Hsize in *.
        pose proof (Nat.div_mod_eq (size (processed_pdfs st)) 5).
        pose proof (Nat.div_mod_eq (S (size (processed_pdfs st))) 5).
        pose proof (Nat.mod_upper_bound (size (processed_pdfs st)) 5).
        pose proof (Nat.mod_upper_bound (S (size (processed_pdfs st))) 5).
        pose proof (subseteq_size _ _ Hsub).
        lia. }
    destruct (IH st1) as (Hr & Hp & Hs & Hi); [done| |done|].
    { intros k' Hk'. rewrite Hp1. subst ids.
      intros [Hin|Hin%elem_of_singleton]%elem_of_union.
      - apply (Hfresh k'); [by right|done].
      - apply Hk. change (key_identifier (pdf, d, r)) with (get_pdf_identifier pdf d r).
        rewrite <- Hin. by apply list_elem_of_fmap_2. }
    split; [done|]. split; [rewrite Hp, Hp1; subst ids; set_solver|].
    split; [|done].
    rewrite Hs, Hp1, Hsize.
    assert (Hst1 : saves (trace st1)
                   = (saves (trace st) + (if (S (size (processed_pdfs st)) mod 5 =? 0)%nat then 1 else 0))%nat).
    { subst st1. rewrite Hsize.
      destruct (S (size (processed_pdfs st)) mod 5 =? 0)%nat; cbn [trace].
      - by rewrite saves_app.
      - lia. }
    rewrite Hst1.
    pose proof (step_quotient (size (processed_pdfs st))) as Hq.
    replace (size (processed_pdfs st) + S (length ks))%nat
      with (S (size (processed_pdfs st)) + length ks)%nat by lia.
    assert (S (size (processed_pdfs st)) / 5 ≤ (S (size (processed_pdfs st)) + length ks) / 5).
    { apply Nat.Div0.div_le_mono. lia. }
    lia.
Qed.

Lemma mark_pdf_as_processed_inv pdf d r st :
  tracker_inv st → tracker_inv (mark_pdf_as_processed pdf d r st).2.
Proof.
  intros [Hsub Hle]. rewrite mark_pdf_as_processed_eq. cbv zeta. cbn [snd].
  set (ids := processed_pdfs st ∪ {[get_pdf_identifier pdf d r]}).
  unfold tracker_inv, unsaved in *.
  destruct (Nat.eqb_spec (size ids mod 5) 0) as [E|E]; cbn.
  - split; [done|]. replace (ids ∖ ids) with (∅ : gset string) by set_solver.
    rewrite size_empty. lia.
  - destruct (decide (get_pdf_identifier pdf d r ∈ processed_pdfs st)) as [Hin|Hnew].
    + assert (Hids : ids = processed_pdfs st) by set_solver.
      rewrite Hids. by split.
    + assert (Hsize : size ids = S (size (processed_pdfs st))).
      { subst ids. rewrite size_union by set_solver. rewrite size_singleton. lia. }
      split; [set_solver|].
      rewrite size_difference in Hle by done.
      rewrite size_difference by set_solver.
      rewrite Hsize in *.
      pose proof (Nat.div_mod_eq (size (processed_pdfs st)) 5).
      pose proof (Nat.div_mod_eq (S (size (processed_pdfs st))) 5).
      pose proof (Nat.mod_upper_bound (size (processed_pdfs st)) 5).
      pose proof (Nat.mod_upper_bound (S (size (processed_pdfs st))) 5).
      pose proof (subseteq_size _ _ Hsub).
      lia.
Qed.

Lemma mark_each_inv (ks : list pdf_key) : ∀ st,
  tracker_inv st →
  let out := mark_each ks st in
  out.1 = Ok tt
  ∧ processed_pdfs out.2 = processed_pdfs st ∪ list_to_set (key_identifier <$> ks)
  ∧ tracker_inv out.2.
Proof.
  induction ks as [|k ks IH]; intros st Hinv; cbv zeta.
  - cbn. split; [done|]. split; [set_solver|done].
  - destruct k as [[pdf d] r].
    change (mark_each ((pdf, d, r) :: ks) st)
      with ((mark_pdf_as_processed pdf d r ;;; mark_each ks) st).
    pose proof (mark_pdf_as_processed_inv pdf d r st Hinv) as Hinv1.
    pose proof (mark_pdf_as_processed_eq pdf d r st) as Heq. cbv zeta in Heq.
    rewrite (bind_Ok _ _ st tt _ Heq). rewrite Heq in Hinv1. cbn [snd] in Hinv1.
    destruct (IH _ Hinv1) as (Hr & Hp & Hi).
    split; [done|]. split; [|done].
    rewrite Hp. cbn [fmap list_fmap list_to_set foldr].
    change (key_identifier (pdf, d, r)) with (get_pdf_identifier pdf d r).
    destruct (size _ mod 5 =? 0); cbn [processed_pdfs]; set_solver.
Qed.

(** C8.  Marking PDFs one after the other, from a freshly started
    analyzer: every identifier ends up in the in-memory set, and at most
    4 identifiers of the set are missing from the tracking file
    afterwards.  When the PDFs are new to the set, the tracking file is
    saved once each time the size of the set reaches a multiple of 5,
    that is, on every 5th addition. *)
Theorem mark_pdf_as_processed_cadence
    (tracker : TrackerFile) (csv : option (list SoftwareRecord)) (ks : list pdf_key) :
  let out := mark_each ks (init tracker csv) in
  let n0 := size (load_processed_pdfs tracker) in
  out.1 = Ok tt
  ∧ processed_pdfs out.2 = load_processed_pdfs tracker ∪ list_to_set (key_identifier <$> ks)
  ∧ size (unsaved out.2) ≤ 4
  ∧ (NoDup (key_identifier <$> ks) →
     (∀ k, k ∈ ks → key_identifier k ∉ load_processed_pdfs tracker) →
     saves (trace out.2) = (n0 + length ks) / 5 - n0 / 5).
Proof.
  cbv zeta.
  destruct (mark_each_inv ks (init tracker csv) (tracker_inv_init _ _))
    as (Hr & Hp & [_ Hle]).
  split; [done|]. split; [done|]. split.
  - pose proof (Nat.mod_upper_bound
                  (size (processed_pdfs (mark_each ks (init tracker csv)).2)) 5).
    lia.
  - intros Hnd Hfresh.
    by destruct (mark_each_fresh ks (init tracker csv) Hnd Hfresh (tracker_inv_init _ _))
      as (_ & _ & Hs & _).
Qed.

Lemma mark_pdf_as_processed_cadence_witness :
  let out := mark_each six_keys (init NoFile None) in
  NoDup (key_identifier <$> six_keys)
  ∧ out.1 = Ok tt
  ∧ processed_pdfs out.2 = ∅ ∪ list_to_set (key_identifier <$> six_keys)
  ∧ size (unsaved out.2) ≤ 4
  ∧ saves (trace out.2) = 1.
Proof.
  assert (Hnd : NoDup (key_identifier <$> six_keys)).
  { apply (bool_decide_unpack _). by vm_compute. }
  assert (Hfresh : ∀ k, k ∈ six_keys → key_identifier k ∉ load_processed_pdfs NoFile).
  { intros k _. apply not_elem_of_empty. }
  destruct (mark_pdf_as_processed_cadence NoFile None six_keys) as (H1 & H2 & H3 & H4).
  split; [exact Hnd|]. split; [exact H1|]. split; [exact H2|]. split; [exact H3|].
  exact (H4 Hnd Hfresh).
Defined.

(** ** The extraction client *)

Section Client.

Variable json_loads : string -> option pyvalue.
Variable post : nat -> post_result.
Variables district round_num pdf_name : string.
Variable page_num : nat.

Lemma parse_response_eq content st :
  parse_response json_loads content district round_num pdf_name page_num st =
  match parse_records json_loads content district round_num pdf_name page_num with
  | Ok records =>
      (Ok records, set_stats (add_software_records_extracted (length records)) st)
  | Raise e => (Raise e, st)
  end.
Proof.
  unfold parse_response, parse_records, recover, bind, lift, modify, ret, res_bind.
  destruct (clean_response content) as [cleaned|e]; [|done].
  destruct (parse_json_with_recovery json_loads (Str.strip cleaned)) as [v|e]; [|done].
  destruct (iterate v) as [items|e]; [|done].
  by destruct (res_map _ items).
Qed.

(** One attempt, by what it comes to. *)
Lemma attempt_once_eq attempt retry_delay st :
  attempt_once json_loads post district round_num pdf_name page_num attempt retry_delay st =
  let st1 := emit (EvPost pdf_name page_num attempt) (set_stats incr_api_calls_made st) in
  let last_attempt := (attempt =? max_retries - 1)%nat in
  match classify json_loads (post attempt) district round_num pdf_name page_num with
  | Succeeds records =>
      (Ok (Return records, retry_delay),
       set_stats (add_software_records_extracted (length records)) st1)
  | Fails MalformedJSON =>
      if last_attempt
      then (Ok (Return [], retry_delay), set_stats incr_errors_encountered st1)
      else (Ok (Continue, retry_delay), st1)
  | Fails _ =>
      if last_attempt
      then (Ok (Return [], retry_delay), set_stats incr_errors_encountered st1)
      else (Ok (Continue, Qred (retry_delay * 1.5)), emit (EvSleep retry_delay) st1)
  | Interrupted => (Raise KeyboardInterrupt, st1)
  end.
Proof.
  unfold attempt_once, classify, try_except, bind, lift, modify, ret.
  change (max_retries - 1) with 2.
  destruct (post attempt) as [content|e].
  - rewrite parse_response_eq.
    destruct (parse_records _ _ _ _ _ _) as [records|e]; [done|].
    destruct e; cbn; by destruct (attempt =? 2).
  - destruct e; cbn; by destruct (attempt =? 2).
Qed.

Lemma retry_loop_step n attempt retry_delay st :
  retry_loop json_loads post district round_num pdf_name page_num (S n) attempt retry_delay st =
  let st1 := emit (EvPost pdf_name page_num attempt) (set_stats incr_api_calls_made st) in
  match classify json_loads (post attempt) district round_num pdf_name page_num with
  | Succeeds records =>
      (Ok records, set_stats (add_software_records_extracted (length records)) st1)
  | Fails MalformedJSON =>
      if (attempt =? 2)%nat
      then (Ok [], set_stats incr_errors_encountered st1)
      else retry_loop json_loads post district round_num pdf_name page_num
             n (S attempt) retry_delay st1
  | Fails _ =>
      if (attempt =? 2)%nat
      then (Ok [], set_stats incr_errors_encountered st1)
      else retry_loop json_loads post district round_num pdf_name page_num
             n (S attempt) (Qred (retry_delay * 1.5)) (emit (EvSleep retry_delay) st1)
  | Interrupted => (Raise KeyboardInterrupt, st1)
  end.
Proof.
  cbn [retry_loop]. unfold bind at 1. rewrite attempt_once_eq.
  change (max_retries - 1) with 2. cbn zeta.
  destruct (classify _ _ _ _ _ _) as [records|[]|]; try done;
    by destruct (attempt =? 2).
Qed.

Lemma events_since_app st st' evs :
  trace st' = (trace st ++ evs)%list → events_since st st' = evs.
Proof. intros H. unfold events_since. rewrite H. apply drop_app_length. Qed.

End Client.

(** Runs the three iterations of the retry loop by cases on what each
    attempt comes to. *)
Ltac run_retry_loop :=
  repeat (rewrite retry_loop_step; cbn zeta;
          match goal with
          | |- context [classify ?j ?p ?d ?r ?f ?n] =>
              let E := fresh "E" in
              destruct (classify j p d r f n) as [?|[]|] eqn:E
          end;
          cbn [Nat.eqb]).

Ltac read_trace :=
  cbn [fst snd trace stats processed_pdfs emit set_stats];
  rewrite <- ?app_assoc; cbn [app].

(** C3, amended.  With a page image to send, the client makes at most 3
    attempts; a transport failure and an unexpected exception are
    retried alike, after a sleep that starts at 2 seconds and is
    multiplied by 1.5 each time it is taken; a malformed response is
    retried at once, with no sleep and the delay unchanged. *)
Theorem analyze_page_backoff
    (json_loads : string -> option pyvalue) (post : nat -> post_result)
    (image_bytes text_content district round_num pdf_name : string)
    (page_num : nat) (st : Analyzer) :
  nonempty image_bytes = true →
  let out := analyze_page_with_gpt json_loads post image_bytes text_content
               district round_num pdf_name page_num st in
  let outcomes :=
    (λ attempt, classify json_loads (post attempt) district round_num pdf_name page_num)
      <$> seq 0 max_retries in
  posts (events_since st out.2) ≤ max_retries
  ∧ sleeps (events_since st out.2) = retry_sleeps outcomes 0 2%Q.
Proof.
  intros Himg. cbv zeta. unfold analyze_page_with_gpt. rewrite Himg. cbn [negb].
  unfold max_retries. cbn [seq fmap list_fmap retry_sleeps].
  run_retry_loop;
    match goal with
    | |- context [events_since st ?st'] =>
        rewrite (events_since_app st st' _ ltac:(read_trace; reflexivity))
    end;
    rewrite ?E, ?E0, ?E1;
    (split; [vm_compute; lia | reflexivity]).
Qed.

Lemma analyze_page_backoff_witness :
  let out := analyze_page_with_gpt JsonDecoder.loads post_unreachable
               "png" "" "Lincoln" "1" "a.pdf" 0 (init NoFile None) in
  posts (events_since (init NoFile None) out.2) ≤ 3
  ∧ sleeps (events_since (init NoFile None) out.2) = [2%Q; 3%Q].
Proof.
  exact (analyze_page_backoff JsonDecoder.loads post_unreachable
           "png" "" "Lincoln" "1" "a.pdf" 0 (init NoFile None) eq_refl).
Defined.

(** C3 as stated fails: three malformed responses in a row are retried
    with no sleep at all. *)
Lemma uniform_backoff_counterexample :
  (∀ attempt, classify JsonDecoder.loads (post_garbage attempt) "Lincoln" "1" "a.pdf" 0
              = Fails MalformedJSON)
  ∧ events_since (init NoFile None)
      (analyze_page_with_gpt JsonDecoder.loads post_garbage "png" "" "Lincoln" "1" "a.pdf" 0
         (init NoFile None)).2
    = [EvPost "a.pdf" 0 0; EvPost "a.pdf" 0 1; EvPost "a.pdf" 0 2]
  ∧ ¬ uniform_backoff_as_stated.
Proof.
  assert (Hclass : ∀ attempt,
            classify JsonDecoder.loads (post_garbage attempt) "Lincoln" "1" "a.pdf" 0
            = Fails MalformedJSON).
  { intros attempt. by vm_compute. }
  split; [exact Hclass|]. split; [by vm_compute|].
  intros H.
  specialize (H JsonDecoder.loads post_garbage "png" "" "Lincoln" "1" "a.pdf" 0
                (init NoFile None) eq_refl).
  assert (Hfail : ∀ attempt, attempt < max_retries →
            ∃ f, classify JsonDecoder.loads (post_garbage attempt) "Lincoln" "1" "a.pdf" 0
                 = Fails f).
  { intros attempt _. exists MalformedJSON. apply Hclass. }
  specialize (H Hfail). vm_compute in H. discriminate H.
Qed.

(** C7.  When each of the 3 attempts fails, in whichever of the three
    classes, the client returns the empty list, no exception leaves it,
    and the error counter goes up by exactly one; the 3 calls are
    counted and nothing else changes but the trace. *)
Theorem analyze_page_terminal_degrade
    (json_loads : string -> option pyvalue) (post : nat -> post_result)
    (image_bytes text_content district round_num pdf_name : string)
    (page_num : nat) (st : Analyzer) :
  nonempty image_bytes = true →
  (∀ attempt, attempt < max_retries →
     ∃ f, classify json_loads (post attempt) district round_num pdf_name page_num = Fails f) →
  let out := analyze_page_with_gpt json_loads post image_bytes text_content
               district round_num pdf_name page_num st in
  out.1 = Ok []
  ∧ errors_encountered (stats out.2) = S (errors_encountered (stats st))
  ∧ api_calls_made (stats out.2) = api_calls_made (stats st) + 3
  ∧ software_records_extracted (stats out.2) = software_records_extracted (stats st)
  ∧ pages_analyzed (stats out.2) = pages_analyzed (stats st)
  ∧ pdfs_processed (stats out.2) = pdfs_processed (stats st)
  ∧ districts_processed (stats out.2) = districts_processed (stats st)
  ∧ processed_pdfs out.2 = processed_pdfs st
  ∧ posts (events_since st out.2) = 3.
Proof.
  intros Himg Hfail. cbv zeta. unfold analyze_page_with_gpt. rewrite Himg. cbn [negb].
  destruct (Hfail 0) as [f0 E0]; [unfold max_retries; lia|].
  destruct (Hfail 1) as [f1 E1]; [unfold max_retries; lia|].
  destruct (Hfail 2) as [f2 E2]; [unfold max_retries; lia|].
  unfold max_retries.
  rewrite retry_loop_step, E0. cbn zeta. cbn [Nat.eqb].
  destruct f0;
    rewrite retry_loop_step, E1; cbn zeta; cbn [Nat.eqb];
    destruct f1;
      rewrite retry_loop_step, E2; cbn zeta; cbn [Nat.eqb];
      destruct f2;
        match goal with
        | |- context [events_since st ?st'] =>
            rewrite (events_since_app st st' _ ltac:(read_trace; reflexivity))
        end;
        destruct st as [p [] f c t tr]; cbn;
        repeat split; lia.
Qed.

Lemma analyze_page_terminal_degrade_witness :
  let out := analyze_page_with_gpt JsonDecoder.loads post_unreachable
               "png" "" "Lincoln" "1" "a.pdf" 0 (init NoFile None) in
  out.1 = Ok []
  ∧ errors_encountered (stats out.2) = 1
  ∧ api_calls_made (stats out.2) = 3.
Proof.
  assert (Hfail : ∀ attempt, attempt < max_retries →
            ∃ f, classify JsonDecoder.loads (post_unreachable attempt) "Lincoln" "1" "a.pdf" 0
                 = Fails f).
  { intros attempt _. exists Transport. reflexivity. }
  destruct (analyze_page_terminal_degrade JsonDecoder.loads post_unreachable
              "png" "" "Lincoln" "1" "a.pdf" 0 (init NoFile None) eq_refl Hfail)
    as (H1 & H2 & H3 & _).
  exact (conj H1 (conj H2 H3)).
Defined.

(** ** process_pdf *)

Lemma advanced_advanced st s evs s' evs' :
  advanced (advanced st s evs) s' evs' = advanced st s' (evs ++ evs').
Proof. unfold advanced. cbn. by rewrite app_assoc. Qed.

Lemma advanced_emit st s evs e :
  emit e (advanced st s evs) = advanced st s (evs ++ [e]).
Proof. unfold advanced, emit. cbn. by rewrite app_assoc. Qed.

Lemma advanced_set_stats st s evs f :
  set_stats f (advanced st s evs) = advanced st (f s) evs.
Proof. reflexivity. Qed.

Lemma advanced_refl st : st = advanced st (stats st) [].
Proof. destruct st. unfold advanced. cbn. by rewrite app_nil_r. Qed.

Lemma emit_advanced e st : emit e st = advanced st (stats st) [e].
Proof. reflexivity. Qed.

Lemma set_stats_advanced f st : set_stats f st = advanced st (f (stats st)) [].
Proof. destruct st. unfold advanced, set_stats. cbn. by rewrite app_nil_r. Qed.

Lemma events_since_advanced st s evs : events_since st (advanced st s evs) = evs.
Proof. by apply events_since_app. Qed.

Lemma extracted_pages_app tr1 tr2 :
  extracted_pages (tr1 ++ tr2) = extracted_pages tr1 ++ extracted_pages tr2.
Proof. unfold extracted_pages. apply omap_app. Qed.

Lemma opened_app tr1 tr2 : opened (tr1 ++ tr2) = opened tr1 ++ opened tr2.
Proof. unfold opened. apply omap_app. Qed.

Section ProcessPdf.

Variable json_loads : string -> option pyvalue.

(** The client touches the counters and the trace only; it opens no
    file and renders no page; the only exception that leaves it is the
    interrupt. *)
Lemma analyze_page_frame post image_bytes text_content district round_num pdf_name page_num st :
  let out := analyze_page_with_gpt json_loads post image_bytes text_content
               district round_num pdf_name page_num st in
  ∃ s evs,
    out.2 = advanced st s evs
    ∧ extracted_pages evs = [] ∧ opened evs = []
    ∧ pages_analyzed s = pages_analyzed (stats st)
    ∧ pdfs_processed s = pdfs_processed (stats st)
    ∧ (∀ e, out.1 = Raise e → e = KeyboardInterrupt).
Proof.
  cbv zeta. unfold analyze_page_with_gpt.
  destruct (nonempty image_bytes); cbn [negb].
  - unfold max_retries. run_retry_loop; cbn [fst snd];
      rewrite (set_stats_advanced incr_api_calls_made st);
      repeat (rewrite advanced_emit || rewrite advanced_set_stats);
      (eexists; eexists; split; [reflexivity|]);
      (repeat split; try reflexivity;
       intros e' He'; by inversion He').
  - exists (stats st), []. cbn. split; [apply advanced_refl|]. repeat split; try done.
Qed.

Variable pdf : Pdf.
Variables district round_num : string.

Lemma process_pages_cons page pages page_num all_records st :
  process_pages json_loads pdf district round_num (page :: pages) page_num all_records st =
  let st1 := emit (EvExtract (pdf_path pdf) page_num) st in
  let continue all_records st2 :=
    process_pages json_loads pdf district round_num pages (S page_num) all_records
      (emit (EvSleep 1.5) (set_stats incr_pages_analyzed st2)) in
  if nonempty (page_content page).1 then
    match analyze_page_with_gpt json_loads (page_post page)
            (page_content page).1 (page_content page).2
            district round_num (pdf_name pdf) page_num st1 with
    | (Ok records, st2) => continue (all_records ++ records) st2
    | (Raise e, st2) => (Raise e, st2)
    end
  else continue all_records st1.
Proof.
  cbn [process_pages].
  unfold extract_page_content, page_content, modify, ret, bind.
  destruct (page_render page) as [[img text]|]; cbn [fst snd].
  - destruct (nonempty img); [|reflexivity].
    by destruct (analyze_page_with_gpt _ _ _ _ _ _ _ _ _) as [[records|e] st2].
  - reflexivity.
Qed.

(** The page loop: it opens nothing and marks nothing; when it ends
    without an exception every page left has been handed to the
    extractor, in order, and counted; the only exception that leaves it
    is the interrupt. *)
Lemma process_pages_spec pages : ∀ page_num all_records st,
  let out := process_pages json_loads pdf district round_num pages page_num all_records st in
  ∃ s evs,
    out.2 = advanced st s evs
    ∧ opened evs = []
    ∧ pdfs_processed s = pdfs_processed (stats st)
    ∧ match out.1 with
      | Ok _ =>
          extracted_pages evs = (λ n, (pdf_path pdf, n)) <$> seq page_num (length pages)
          ∧ pages_analyzed s = pages_analyzed (stats st) + length pages
      | Raise e => e = KeyboardInterrupt
      end.
Proof.
  induction pages as [|page pages IH]; intros page_num all_records st; cbv zeta.
  - exists (stats st), []. cbn. split; [apply advanced_refl|].
    repeat split; lia.
  - rewrite process_pages_cons. cbv zeta.
    set (st1 := emit (EvExtract (pdf_path pdf) page_num) st).
    assert (Hst1 : st1 = advanced st (stats st) [EvExtract (pdf_path pdf) page_num])
      by reflexivity.
    destruct (nonempty (page_content page).1).
    + pose proof (analyze_page_frame (page_post page) (page_content page).1
                    (page_content page).2 district round_num (pdf_name pdf) page_num st1)
        as (s2 & evs2 & Hout & Hex & Hop & Hpa & Hpp & Hraise).
      destruct (analyze_page_with_gpt _ _ _ _ _ _ _ _ _) as [[records|e] st2];
        cbn [fst snd] in *; subst st2; rewrite Hst1, advanced_advanced.
      * specialize (IH (S page_num) (all_records ++ records)
                       (emit (EvSleep 1.5) (set_stats incr_pages_analyzed
                          (advanced st s2 ([EvExtract (pdf_path pdf) page_num] ++ evs2))))).
        cbv zeta in IH. destruct IH as (s3 & evs3 & Hout3 & Hop3 & Hpp3 & Hres).
        rewrite advanced_set_stats, advanced_emit in Hout3, Hpp3, Hres.
        rewrite advanced_set_stats, advanced_emit.
        rewrite advanced_advanced in Hout3.
        eexists; eexists. split; [exact Hout3|].
        rewrite !opened_app, Hop, Hop3. split; [reflexivity|].
        cbn [stats advanced] in Hpp3, Hres. rewrite Hst1 in Hpa, Hpp. cbn [stats advanced] in Hpa, Hpp.
        split; [destruct s2; cbn in *; lia|].
        destruct (process_pages _ _ _ _ _ _ _ _).1; [|exact Hres].
        destruct Hres as [Hex3 Hpa3].
        rewrite !extracted_pages_app, Hex, Hex3. cbn [length seq fmap list_fmap].
        split; [reflexivity|]. destruct s2; cbn in *; lia.
      * eexists; eexists. split; [reflexivity|].
        rewrite opened_app, Hop. split; [reflexivity|].
        rewrite Hst1 in Hpp. cbn [stats advanced] in Hpp. split; [exact Hpp|].
        by apply Hraise.
    + specialize (IH (S page_num) all_records
                     (emit (EvSleep 1.5) (set_stats incr_pages_analyzed st1))).
      cbv zeta in IH. destruct IH as (s3 & evs3 & Hout3 & Hop3 & Hpp3 & Hres).
      rewrite Hst1, advanced_set_stats, advanced_emit in Hout3, Hpp3, Hres.
      rewrite Hst1, advanced_set_stats, advanced_emit.
      rewrite advanced_advanced in Hout3.
      eexists; eexists. split; [exact Hout3|].
      rewrite !opened_app, Hop3. split; [reflexivity|].
      cbn [stats advanced] in Hpp3, Hres.
      split; [destruct (stats st); cbn in *; lia|].
      destruct (process_pages _ _ _ _ _ _ _ _).1; [|exact Hres].
      destruct Hres as [Hex3 Hpa3].
      rewrite !extracted_pages_app, Hex3. cbn [length seq fmap list_fmap].
      split; [reflexivity|]. destruct (stats st); cbn in *; lia.
Qed.

Lemma process_pdf_eq st :
  process_pdf json_loads pdf district round_num st =
  if bool_decide (get_pdf_identifier (pdf_name pdf) district round_num ∈ processed_pdfs st)
  then (Ok [], st)
  else
    let st1 := emit (EvOpen (pdf_path pdf)) st in
    match pdf_pages pdf with
    | None => (Ok [], set_stats incr_errors_encountered st1)
    | Some pages =>
        match process_pages json_loads pdf district round_num pages 0 [] st1 with
        | (Ok all_records, st2) =>
            (Ok all_records,
             (mark_pdf_as_processed (pdf_name pdf) district round_num
                (set_stats incr_pdfs_processed st2)).2)
        | (Raise e, st2) =>
            if is_Exception e then (Ok [], set_stats incr_errors_encountered st2)
            else (Raise e, st2)
        end
    end.
Proof.
  unfold process_pdf, is_pdf_already_processed, open_document, try_except, gets, modify,
    raise, ret, bind.
  destruct (bool_decide _); [reflexivity|]. cbv zeta.
  destruct (pdf_pages pdf) as [pages|]; [|reflexivity].
  destruct (process_pages _ _ _ _ _ _ _ _) as [[all_records|e] st2]; [|reflexivity].
  by rewrite mark_pdf_as_processed_eq.
Qed.

Lemma first_requests_app tr1 tr2 :
  first_requests (tr1 ++ tr2) = first_requests tr1 ++ first_requests tr2.
Proof. unfold first_requests. apply omap_app. Qed.

(** A page with an image is sent to the service: whatever the call of
    the client comes to, its first request is made. *)
Lemma analyze_page_first_request post image_bytes text_content district' round_num'
    pdf_name page_num st :
  let out := analyze_page_with_gpt json_loads post image_bytes text_content
               district' round_num' pdf_name page_num st in
  ∃ s evs,
    out.2 = advanced st s evs
    ∧ first_requests evs = if nonempty image_bytes then [(pdf_name, page_num)] else [].
Proof.
  cbv zeta. unfold analyze_page_with_gpt.
  destruct (nonempty image_bytes); cbn [negb].
  - unfold max_retries. run_retry_loop; cbn [fst snd];
      rewrite (set_stats_advanced incr_api_calls_made st);
      repeat (rewrite advanced_emit || rewrite advanced_set_stats);
      (eexists; eexists; split; reflexivity).
  - exists (stats st), []. cbn. split; [apply advanced_refl|reflexivity].
Qed.

(** When the page loop ends without an exception, the pages sent to
    the service are the pages with an image, in order. *)
Lemma process_pages_requests pages : ∀ page_num all_records st,
  let out := process_pages json_loads pdf district round_num pages page_num all_records st in
  ∃ s evs,
    out.2 = advanced st s evs
    ∧ (∀ records, out.1 = Ok records →
         first_requests evs = (λ n, (pdf_name pdf, n)) <$> rendered_pages pages page_num).
Proof.
  induction pages as [|page pages IH]; intros page_num all_records st; cbv zeta.
  - exists (stats st), []. cbn. split; [apply advanced_refl|done].
  - rewrite process_pages_cons. cbv zeta. cbn [rendered_pages].
    set (st1 := emit (EvExtract (pdf_path pdf) page_num) st).
    assert (Hst1 : st1 = advanced st (stats st) [EvExtract (pdf_path pdf) page_num])
      by reflexivity.
    destruct (nonempty (page_content page).1) eqn:Himg.
    + pose proof (analyze_page_first_request (page_post page) (page_content page).1
                    (page_content page).2 district round_num (pdf_name pdf) page_num st1)
        as (s2 & evs2 & Hout & Hreq).
      rewrite Himg in Hreq.
      destruct (analyze_page_with_gpt _ _ _ _ _ _ _ _ _) as [[records|e] st2];
        cbn [fst snd] in *; subst st2; rewrite Hst1, advanced_advanced.
      * specialize (IH (S page_num) (all_records ++ records)
                       (emit (EvSleep 1.5) (set_stats incr_pages_analyzed
                          (advanced st s2 ([EvExtract (pdf_path pdf) page_num] ++ evs2))))).
        cbv zeta in IH. destruct IH as (s3 & evs3 & Hout3 & Hreq3).
        rewrite advanced_set_stats, advanced_emit in Hout3, Hreq3.
        rewrite advanced_set_stats, advanced_emit.
        rewrite advanced_advanced in Hout3.
        eexists; eexists. split; [exact Hout3|].
        intros records' Hr. rewrite !first_requests_app, Hreq, (Hreq3 records' Hr).
        reflexivity.
      * eexists; eexists. split; [reflexivity|]. intros records' Hr. discriminate Hr.
    + specialize (IH (S page_num) all_records
                     (emit (EvSleep 1.5) (set_stats incr_pages_analyzed st1))).
      cbv zeta in IH. destruct IH as (s3 & evs3 & Hout3 & Hreq3).
      rewrite Hst1, advanced_set_stats, advanced_emit in Hout3, Hreq3.
      rewrite Hst1, advanced_set_stats, advanced_emit.
      rewrite advanced_advanced in Hout3.
      eexists; eexists. split; [exact Hout3|].
      intros records' Hr. rewrite !first_requests_app, (Hreq3 records' Hr). reflexivity.
Qed.

(** A call adds no identifier but that of its PDF, and the tracking
    file is left as it was or becomes the processed set. *)
Lemma process_pdf_marks_own st :
  let out := process_pdf json_loads pdf district round_num st in
  processed_pdfs out.2
  ⊆ processed_pdfs st ∪ {[get_pdf_identifier (pdf_name pdf) district round_num]}
  ∧ (processed_pdfs_file out.2 = processed_pdfs_file st
     ∨ processed_pdfs_file out.2 = Tracker (processed_pdfs out.2)).
Proof.
  cbv zeta. rewrite process_pdf_eq. cbv zeta.
  destruct (bool_decide _); [cbn [snd]; split; [set_solver|by left]|].
  destruct (pdf_pages pdf) as [pages|].
  2: { cbn [snd processed_pdfs processed_pdfs_file set_stats emit].
       split; [set_solver|by left]. }
  pose proof (process_pages_spec pages 0 [] (emit (EvOpen (pdf_path pdf)) st))
    as (s & evs & Hout & _).
  cbv zeta in Hout.
  destruct (process_pages _ _ _ _ _ _ _ _) as [[all_records|e] st2];
    cbn [fst snd] in *; subst st2; rewrite emit_advanced, advanced_advanced.
  - rewrite advanced_set_stats, mark_pdf_as_processed_eq. cbv zeta.
    match goal with |- context [if ?b then _ else _] => destruct b end;
      cbn [snd processed_pdfs processed_pdfs_file advanced].
    + split; [done|by right].
    + split; [done|by left].
  - destruct (is_Exception e);
      cbn [snd processed_pdfs processed_pdfs_file advanced set_stats];
      (split; [set_solver|by left]).
Qed.

End ProcessPdf.

(** C2, amended.  A PDF whose identifier is in the processed set is
    skipped: [process_pdf] returns the empty list and changes nothing,
    so no page is rendered and no call is made.  A call of
    [process_pdf] that adds the identifier of its PDF to the processed
    set has handed every page of the PDF to the extractor, in order,
    has sent every page that has an image to the service, in order, and
    has counted every page.  A call that an exception ends leaves the
    processed set as it was.  A call adds no identifier but that of its
    PDF, and takes none away. *)
Theorem process_pdf_marks_after_all_pages
    (json_loads : string -> option pyvalue) (pdf : Pdf) (district round_num : string)
    (st : Analyzer) :
  let pdf_id := get_pdf_identifier (pdf_name pdf) district round_num in
  let out := process_pdf json_loads pdf district round_num st in
  (pdf_id ∈ processed_pdfs st → out = (Ok [], st))
  ∧ (pdf_id ∉ processed_pdfs st → pdf_id ∈ processed_pdfs out.2 →
       ∃ pages records,
         pdf_pages pdf = Some pages ∧ out.1 = Ok records
         ∧ extracted_pages (events_since st out.2)
           = (λ n, (pdf_path pdf, n)) <$> seq 0 (length pages)
         ∧ first_requests (events_since st out.2)
           = (λ n, (pdf_name pdf, n)) <$> rendered_pages pages 0
         ∧ pages_analyzed (stats out.2) = pages_analyzed (stats st) + length pages)
  ∧ (∀ e, out.1 = Raise e → processed_pdfs out.2 = processed_pdfs st)
  ∧ processed_pdfs st ⊆ processed_pdfs out.2
  ∧ processed_pdfs out.2 ⊆ processed_pdfs st ∪ {[pdf_id]}.
Proof.
  cbv zeta. rewrite process_pdf_eq. cbv zeta.
  destruct (bool_decide_reflect
              (get_pdf_identifier (pdf_name pdf) district round_num ∈ processed_pdfs st))
    as [Hin|Hnotin].
  { cbn [fst snd]. split; [done|]. split; [done|]. split; [done|]. set_solver. }
  split; [done|].
  destruct (pdf_pages pdf) as [pages|].
  2: { cbn [fst snd processed_pdfs set_stats emit].
       split; [done|]. split; [done|]. set_solver. }
  pose proof (process_pages_spec json_loads pdf district round_num pages 0 []
                (emit (EvOpen (pdf_path pdf)) st))
    as (s & evs & Hout & Hop & Hpp & Hres).
  pose proof (process_pages_requests json_loads pdf district round_num pages 0 []
                (emit (EvOpen (pdf_path pdf)) st))
    as (s' & evs' & Hout' & Hreq).
  cbv zeta in *.
  destruct (process_pages _ _ _ _ _ _ _ _) as [[all_records|e] st2];
    cbn [fst snd] in *; subst st2.
  - destruct Hres as [Hex Hpa]. specialize (Hreq all_records eq_refl).
    assert (evs' = evs) as ->.
    { rewrite <- (events_since_advanced (emit (EvOpen (pdf_path pdf)) st) s' evs').
      by rewrite <- Hout', events_since_advanced. }
    clear Hout'.
    rewrite emit_advanced, advanced_advanced, advanced_set_stats in *.
    rewrite mark_pdf_as_processed_eq. cbv zeta.
    match goal with |- context [if ?b then _ else _] => destruct b end; cbn [snd].
    + rewrite (events_since_app st _ (([EvOpen (pdf_path pdf)] ++ evs) ++
                 [EvSaveTracker (processed_pdfs st ∪
                    {[get_pdf_identifier (pdf_name pdf) district round_num]})]))
        by (cbn [trace advanced processed_pdfs]; by rewrite <- app_assoc).
      split.
      * intros _. exists pages, all_records. split; [done|]. split; [done|].
        rewrite !extracted_pages_app, !first_requests_app, Hex, Hreq.
        cbn [extracted_pages first_requests omap list_omap app stats].
        rewrite !app_nil_r. split; [reflexivity|]. split; [reflexivity|].
        cbn [stats advanced] in Hpa. destruct s; cbn in *; lia.
      * split; [intros e He; discriminate He|].
        cbn [processed_pdfs advanced]. set_solver.
    + rewrite (events_since_app st _ ([EvOpen (pdf_path pdf)] ++ evs)) by reflexivity.
      split.
      * intros _. exists pages, all_records. split; [done|]. split; [done|].
        rewrite !extracted_pages_app, !first_requests_app, Hex, Hreq.
        cbn [extracted_pages first_requests omap list_omap app stats].
        split; [reflexivity|]. split; [reflexivity|].
        cbn [stats advanced] in Hpa. destruct s; cbn in *; lia.
      * split; [intros e He; discriminate He|].
        cbn [processed_pdfs advanced]. set_solver.
  - subst e. cbn [is_Exception fst snd]. rewrite emit_advanced, advanced_advanced.
    cbn [processed_pdfs advanced].
    split; [done|]. split; [done|]. set_solver.
Qed.

Lemma process_pdf_marks_after_all_pages_witness :
  let st0 := init NoFile None in
  let out := process_pdf JsonDecoder.loads lincoln_pdf "Lincoln" "1" st0 in
  "Lincoln/1/invoice.pdf" ∈ processed_pdfs out.2
  ∧ (∃ pages records,
       pdf_pages lincoln_pdf = Some pages ∧ out.1 = Ok records
       ∧ extracted_pages (events_since st0 out.2)
         = (λ n, (pdf_path lincoln_pdf, n)) <$> seq 0 (length pages)
       ∧ first_requests (events_since st0 out.2)
         = (λ n, (pdf_name lincoln_pdf, n)) <$> rendered_pages pages 0
       ∧ pages_analyzed (stats out.2) = pages_analyzed (stats st0) + length pages)
  ∧ process_pdf JsonDecoder.loads lincoln_pdf "Lincoln" "1" out.2 = (Ok [], out.2)
  ∧ processed_pdfs (process_pdf JsonDecoder.loads interrupted_pdf "Lincoln" "1" st0).2
    = processed_pdfs st0.
Proof.
  cbv zeta.
  assert (Hnew : "Lincoln/1/invoice.pdf" ∉ processed_pdfs (init NoFile None)).
  { apply not_elem_of_empty. }
  assert (Hin : "Lincoln/1/invoice.pdf"
                ∈ processed_pdfs (process_pdf JsonDecoder.loads lincoln_pdf "Lincoln" "1"
                                    (init NoFile None)).2).
  { apply (bool_decide_unpack _). by vm_compute. }
  split; [exact Hin|]. split.
  - exact (proj1 (proj2 (process_pdf_marks_after_all_pages JsonDecoder.loads lincoln_pdf
                           "Lincoln" "1" (init NoFile None))) Hnew Hin).
  - split.
    + exact (proj1 (process_pdf_marks_after_all_pages JsonDecoder.loads lincoln_pdf
                      "Lincoln" "1" _) Hin).
    + assert (Hraise : (process_pdf JsonDecoder.loads interrupted_pdf "Lincoln" "1"
                          (init NoFile None)).1 = Raise KeyboardInterrupt).
      { by vm_compute. }
      exact (proj1 (proj2 (proj2 (process_pdf_marks_after_all_pages JsonDecoder.loads
                             interrupted_pdf "Lincoln" "1" (init NoFile None))))
               KeyboardInterrupt Hraise).
Defined.

(** C2 as stated fails where two PDFs share a file name: the identifier
    is made of district, round and file name, so once the invoice in
    the subfolder is processed the file of the same name in the round
    folder has its identifier in the processed set; none of its pages
    has been handed to the extractor, the file has not been opened, and
    [process_pdf] skips it from then on. *)
Lemma marked_after_all_pages_counterexample :
  let st := (process_pdf JsonDecoder.loads lincoln_pdf_copy "Lincoln" "1"
               (init NoFile None)).2 in
  pdf_path lincoln_pdf ≠ pdf_path lincoln_pdf_copy
  ∧ pdf_pages lincoln_pdf ≠ None
  ∧ get_pdf_identifier (pdf_name lincoln_pdf) "Lincoln" "1" ∈ processed_pdfs st
  ∧ (∀ n, (pdf_path lincoln_pdf, n) ∉ extracted_pages (trace st))
  ∧ (pdf_path lincoln_pdf ∉ opened (trace st))
  ∧ process_pdf JsonDecoder.loads lincoln_pdf "Lincoln" "1" st = (Ok [], st)
  ∧ ¬ marked_after_all_pages_as_stated.
Proof.
  cbv zeta.
  assert (Hin : get_pdf_identifier (pdf_name lincoln_pdf) "Lincoln" "1"
                ∈ processed_pdfs (process_pdf JsonDecoder.loads lincoln_pdf_copy "Lincoln" "1"
                                    (init NoFile None)).2).
  { apply (bool_decide_unpack _). by vm_compute. }
  assert (Hex : extracted_pages
                  (trace (process_pdf JsonDecoder.loads lincoln_pdf_copy "Lincoln" "1"
                            (init NoFile None)).2)
                = [(pdf_path lincoln_pdf_copy, 0); (pdf_path lincoln_pdf_copy, 1)]).
  { by vm_compute. }
  assert (Hno : ∀ n, (pdf_path lincoln_pdf, n)
                     ∉ extracted_pages
                         (trace (process_pdf JsonDecoder.loads lincoln_pdf_copy "Lincoln" "1"
                                   (init NoFile None)).2)).
  { intros n. rewrite Hex. intros H.
    repeat (apply elem_of_cons in H as [H|H]; [by inversion H|]).
    by apply elem_of_nil in H. }
  split; [discriminate|]. split; [discriminate|]. split; [exact Hin|].
  split; [exact Hno|]. split.
  { assert (Hop : opened (trace (process_pdf JsonDecoder.loads lincoln_pdf_copy "Lincoln" "1"
                                   (init NoFile None)).2)
                  = [pdf_path lincoln_pdf_copy]) by (by vm_compute).
    rewrite Hop. intros H.
    apply elem_of_cons in H as [H|H]; [discriminate H|by apply elem_of_nil in H]. }
  split.
  { rewrite process_pdf_eq. by rewrite bool_decide_eq_true_2. }
  intros H.
  specialize (H JsonDecoder.loads [(lincoln_pdf_copy, "Lincoln", "1")] lincoln_pdf
                _ "Lincoln" "1" eq_refl Hin 0).
  apply (Hno 0), H. cbn. lia.
Qed.

(** What the steps of a run leave alone: an identifier that is neither
    in the processed set nor in the tracking file stays out of both as
    long as no PDF that opens and has this identifier is handed to
    [process_pdf]. *)
Lemma run_steps_no_openable_twin (json_loads : string -> option pyvalue)
    (pdf_id : string) (steps : list run_step) : ∀ st,
  Forall (no_openable_twin pdf_id) steps →
  pdf_id ∉ processed_pdfs st →
  pdf_id ∉ load_processed_pdfs (processed_pdfs_file st) →
  (pdf_id ∉ processed_pdfs (run_steps json_loads steps st))
  ∧ (pdf_id ∉ load_processed_pdfs (processed_pdfs_file (run_steps json_loads steps st))).
Proof.
  induction steps as [|step steps IH]; intros st Hsteps Hset Hfile; [done|].
  apply Forall_cons in Hsteps as [Hstep Hsteps].
  unfold run_steps. cbn [foldl]. apply IH; [done| |]; clear IH.
  - destruct step as [pdf district round_num| |]; cbn [run_step_to]; [|done..].
    destruct Hstep as [Hnone|Hne].
    + rewrite process_pdf_eq. cbv zeta. rewrite Hnone. by destruct (bool_decide _).
    + destruct (process_pdf_marks_own json_loads pdf district round_num st) as [Hsub _].
      set_solver.
  - destruct step as [pdf district round_num| |]; cbn [run_step_to]; [|done..].
    destruct Hstep as [Hnone|Hne].
    + rewrite process_pdf_eq. cbv zeta. rewrite Hnone. by destruct (bool_decide _).
    + destruct (process_pdf_marks_own json_loads pdf district round_num st)
        as [Hsub [->| ->]]; [done|].
      cbn [load_processed_pdfs]. set_solver.
Qed.

(** C10, amended.  A PDF that [fitz.open] rejects, and whose identifier
    is not in the processed set: [process_pdf] returns the empty list,
    counts one error, and leaves the processed set and the tracking
    file as they were, so the identifier is not recorded.  The same
    holds for every later call: each one tries to open the file again.
    It holds as well after any steps of this run or of later ones, in
    new processes, with the tracking file saved and loaded, provided no
    PDF that opens and has the same file name in the same district and
    round is handed to [process_pdf]: the identifier stays out of the
    set and of the tracking file, and the next call opens the file
    again and counts an error. *)
Theorem process_pdf_unopenable
    (json_loads : string -> option pyvalue) (pdf : Pdf) (district round_num : string)
    (st : Analyzer) :
  pdf_pages pdf = None →
  get_pdf_identifier (pdf_name pdf) district round_num ∉ processed_pdfs st →
  let pdf_id := get_pdf_identifier (pdf_name pdf) district round_num in
  let out := process_pdf json_loads pdf district round_num st in
  let again n := Nat.iter n (λ s, (process_pdf json_loads pdf district round_num s).2) st in
  out.1 = Ok []
  ∧ out.2 = set_stats incr_errors_encountered (emit (EvOpen (pdf_path pdf)) st)
  ∧ errors_encountered (stats out.2) = S (errors_encountered (stats st))
  ∧ processed_pdfs out.2 = processed_pdfs st
  ∧ processed_pdfs_file out.2 = processed_pdfs_file st
  ∧ (pdf_id ∉ processed_pdfs out.2)
  ∧ (∀ n, (pdf_id ∉ processed_pdfs (again n))
          ∧ processed_pdfs_file (again n) = processed_pdfs_file st
          ∧ errors_encountered (stats (again n)) = errors_encountered (stats st) + n
          ∧ opened (events_since st (again n)) = replicate n (pdf_path pdf))
  ∧ (∀ steps,
       pdf_id ∉ load_processed_pdfs (processed_pdfs_file st) →
       Forall (no_openable_twin pdf_id) steps →
       let st' := run_steps json_loads steps st in
       (pdf_id ∉ processed_pdfs st')
       ∧ (pdf_id ∉ load_processed_pdfs (processed_pdfs_file st'))
       ∧ process_pdf json_loads pdf district round_num st'
         = (Ok [], set_stats incr_errors_encountered (emit (EvOpen (pdf_path pdf)) st'))).
Proof.
  intros Hnone Hnew. cbv zeta.
  assert (Hstep : ∀ s evs,
            process_pdf json_loads pdf district round_num (advanced st s evs)
            = (Ok [], advanced st (incr_errors_encountered s) (evs ++ [EvOpen (pdf_path pdf)]))).
  { intros s evs. rewrite process_pdf_eq, bool_decide_eq_false_2 by done.
    cbv zeta. rewrite Hnone. by rewrite advanced_emit, advanced_set_stats. }
  assert (Hlater : ∀ steps,
            get_pdf_identifier (pdf_name pdf) district round_num
              ∉ load_processed_pdfs (processed_pdfs_file st) →
            Forall (no_openable_twin (get_pdf_identifier (pdf_name pdf) district round_num))
              steps →
            (get_pdf_identifier (pdf_name pdf) district round_num
               ∉ processed_pdfs (run_steps json_loads steps st))
            ∧ (get_pdf_identifier (pdf_name pdf) district round_num
                 ∉ load_processed_pdfs (processed_pdfs_file (run_steps json_loads steps st)))
            ∧ process_pdf json_loads pdf district round_num (run_steps json_loads steps st)
              = (Ok [], set_stats incr_errors_encountered
                          (emit (EvOpen (pdf_path pdf)) (run_steps json_loads steps st)))).
  { intros steps Hfile Hsteps.
    destruct (run_steps_no_openable_twin json_loads _ steps st Hsteps Hnew Hfile)
      as [Hset' Hfile'].
    split; [done|]. split; [done|].
    rewrite process_pdf_eq, bool_decide_eq_false_2 by done. cbv zeta. by rewrite Hnone. }
  rewrite process_pdf_eq, bool_decide_eq_false_2 by done. cbv zeta. rewrite Hnone.
  cbn [fst snd].
  split; [done|]. split; [done|]. split; [by destruct st as [? []]|].
  split; [done|]. split; [done|]. split; [done|].
  split; [|exact Hlater].
  intros n.
  assert (Hn : ∃ s, Nat.iter n (λ s, (process_pdf json_loads pdf district round_num s).2) st
                    = advanced st s (EvOpen <$> replicate n (pdf_path pdf))
                    ∧ errors_encountered s = errors_encountered (stats st) + n).
  { induction n as [|n (s & IH & Herr)].
    - exists (stats st). split; [apply advanced_refl|lia].
    - exists (incr_errors_encountered s). rewrite Nat.iter_succ, IH, Hstep. cbn [snd].
      split; [|cbn; lia].
      f_equal. rewrite <- (fmap_app EvOpen _ [pdf_path pdf]).
      f_equal. symmetry. apply replicate_cons_app. }
  destruct Hn as (s & -> & Herr).
  rewrite events_since_advanced. cbn [advanced processed_pdfs processed_pdfs_file stats].
  split; [done|]. split; [done|]. split; [done|].
  clear Herr. unfold opened. induction n as [|n IHn]; [done|]. cbn. by rewrite IHn.
Qed.

Lemma process_pdf_unopenable_witness :
  let st0 := init NoFile None in
  let out := process_pdf JsonDecoder.loads broken_pdf "Lincoln" "1" st0 in
  let later := run_steps JsonDecoder.loads
                 [ProcessPdf lincoln_pdf "Lincoln" "1"; SaveTracker; NewProcess] st0 in
  out.1 = Ok []
  ∧ errors_encountered (stats out.2) = 1
  ∧ processed_pdfs out.2 = ∅
  ∧ opened (events_since st0 out.2) = [pdf_path broken_pdf]
  ∧ process_pdf JsonDecoder.loads broken_pdf "Lincoln" "1" later
    = (Ok [], set_stats incr_errors_encountered (emit (EvOpen (pdf_path broken_pdf)) later)).
Proof.
  cbv zeta.
  assert (Hnew : get_pdf_identifier (pdf_name broken_pdf) "Lincoln" "1"
                 ∉ processed_pdfs (init NoFile None)).
  { apply not_elem_of_empty. }
  assert (Hfile : get_pdf_identifier (pdf_name broken_pdf) "Lincoln" "1"
                  ∉ load_processed_pdfs (processed_pdfs_file (init NoFile None))).
  { apply not_elem_of_empty. }
  assert (Hsteps : Forall (no_openable_twin
                             (get_pdf_identifier (pdf_name broken_pdf) "Lincoln" "1"))
                     [ProcessPdf lincoln_pdf "Lincoln" "1"; SaveTracker; NewProcess]).
  { apply Forall_cons. split; [by right|].
    repeat (apply Forall_cons; split; [done|]). by apply Forall_nil. }
  destruct (process_pdf_unopenable JsonDecoder.loads broken_pdf "Lincoln" "1"
              (init NoFile None) eq_refl Hnew)
    as (H1 & _ & H3 & H4 & _ & _ & Hn & Hlater).
  split; [exact H1|]. split; [exact H3|]. split; [exact H4|].
  split; [exact (proj2 (proj2 (proj2 (Hn 1))))|].
  exact (proj2 (proj2 (Hlater _ Hfile Hsteps))).
Defined.

(** C10 as stated fails where a PDF that opens has the file name of the
    one that does not, in the same round folder.  The first run tries
    the file that cannot be opened and counts the error, then processes
    the other one and records the identifier the two share; the
    tracking file has it.  The second run finds the identifier there:
    it opens neither file and counts no error. *)
Lemma unopenable_twin_counterexample :
  let run1 := full_run [twin_district] (init NoFile None) in
  let run2 := full_run [twin_district] run1 in
  pdf_pages unopenable_invoice = None
  ∧ opened (trace run1) = [pdf_path unopenable_invoice; pdf_path lincoln_pdf_copy]
  ∧ errors_encountered (stats run1) = 1
  ∧ get_pdf_identifier (pdf_name unopenable_invoice) "Lincoln" "1" ∈ processed_pdfs run1
  ∧ get_pdf_identifier (pdf_name unopenable_invoice) "Lincoln" "1"
    ∈ load_processed_pdfs (processed_pdfs_file run1)
  ∧ opened (trace run2) = []
  ∧ errors_encountered (stats run2) = 0
  ∧ ¬ unopenable_never_recorded_as_stated.
Proof.
  cbv zeta.
  split; [reflexivity|]. split; [by vm_compute|]. split; [by vm_compute|].
  split; [apply (bool_decide_unpack _); by vm_compute|].
  split; [apply (bool_decide_unpack _); by vm_compute|].
  split; [by vm_compute|]. split; [by vm_compute|].
  intros H.
  destruct (H JsonDecoder.loads [ProcessPdf lincoln_pdf_copy "Lincoln" "1"]
              unopenable_invoice "Lincoln" "1" eq_refl) as [Hnot _].
  apply Hnot. apply (bool_decide_unpack _). by vm_compute.
Qed.

(** ** Round folders *)

(** C6, the code at a failing input.  A district with the folders R1
    and Round 1: enumerated in this order the loop keeps Round 1, which
    is neither the shorter name nor the one the comment in the source
    prefers; enumerated in the other order it keeps R1.  The choice
    depends on the order of enumeration. *)
Theorem get_round_folders_depends_on_order :
  folder_name <$> (get_round_folders (Some [folder_R1; folder_Round_1]) !! "1")
  = Some "Round 1"
  ∧ folder_name <$> (get_round_folders (Some [folder_Round_1; folder_R1]) !! "1")
    = Some "R1".
Proof. split; by vm_compute. Qed.

(** ** The batch orchestrator *)

(** C1, the code at a failing input.  Six districts with one record
    each.  The first run is interrupted during the page of the sixth
    district; it has written the five records and the five identifiers
    at the checkpoint after the fifth.  The run that resumes opens none
    of the five PDFs the tracker has, and leaves the six records in the
    main table.  The single uninterrupted run leaves eleven rows: the
    checkpoint after the fifth district and the final save both append
    everything accumulated so far.  The two tables are not equal up to
    the order of the rows. *)
Theorem resumed_run_differs_from_single_run :
  let single := full_run six_districts (init NoFile None) in
  let first := full_run six_districts_interrupted (init NoFile None) in
  let resumed := full_run six_districts first in
  (process_all_districts JsonDecoder.loads six_districts_interrupted None None
     (init NoFile None)).1 = Raise KeyboardInterrupt
  ∧ size (load_processed_pdfs (processed_pdfs_file first)) = 5
  ∧ software_names (main_table first)
    = PStr <$> ["Agawam"; "Canton"; "Douglas"; "Easton"; "Franklin"]
  ∧ opened (trace resumed) = ["RA_tasks_2025/Granby/R1/list.pdf"]
  ∧ software_names (main_table resumed)
    = PStr <$> ["Agawam"; "Canton"; "Douglas"; "Easton"; "Franklin"; "Granby"]
  ∧ software_names (main_table single)
    = PStr <$> ["Agawam"; "Canton"; "Douglas"; "Easton"; "Franklin";
                "Agawam"; "Canton"; "Douglas"; "Easton"; "Franklin"; "Granby"]
  ∧ ¬ (main_table single ≡ₚ main_table resumed).
Proof.
  cbv zeta.
  assert (H1 : software_names (main_table
                 (full_run six_districts
                    (full_run six_districts_interrupted (init NoFile None))))
               = PStr <$> ["Agawam"; "Canton"; "Douglas"; "Easton"; "Franklin"; "Granby"])
    by (by vm_compute).
  assert (H2 : software_names (main_table (full_run six_districts (init NoFile None)))
               = PStr <$> ["Agawam"; "Canton"; "Douglas"; "Easton"; "Franklin";
                           "Agawam"; "Canton"; "Douglas"; "Easton"; "Franklin"; "Granby"])
    by (by vm_compute).
  split; [by vm_compute|]. split; [by vm_compute|]. split; [by vm_compute|].
  split; [by vm_compute|]. split; [exact H1|]. split; [exact H2|].
  intros Hperm. apply Permutation_length in Hperm.
  apply (f_equal (@length _)) in H1, H2.
  unfold software_names in H1, H2. rewrite length_map in H1, H2.
  rewrite H1, H2 in Hperm. discriminate Hperm.
Qed.

(** ** The recovery parser *)



(** ** Records *)

Lemma dict_get_set_ne d k v k' default :
  k ≠ k' → dict_get (dict_set d k v) k' default = dict_get d k' default.
Proof.
  intros Hne. unfold dict_get. induction d as [|[k0 v0] d IH]; cbn.
  - destruct (String.eqb_spec k k'); [done|reflexivity].
  - destruct (String.eqb_spec k0 k) as [->|Hk0]; cbn.
    + destruct (String.eqb_spec k k'); [done|reflexivity].
    + destruct (String.eqb_spec k0 k'); [reflexivity|exact IH].
Qed.

Lemma dict_get_set_eq d k v default : dict_get (dict_set d k v) k default = v.
Proof.
  unfold dict_get. induction d as [|[k0 v0] d IH]; cbn.
  - by rewrite String.eqb_refl.
  - destruct (String.eqb_spec k0 k) as [->|Hk0]; cbn.
    + by rewrite String.eqb_refl.
    + destruct (String.eqb_spec k0 k); [done|exact IH].
Qed.

Lemma dict_get_missing d k default : dict_lookup d k = None → dict_get d k default = default.
Proof. unfold dict_get. by intros ->. Qed.

(** The note changes the notes only. *)
Lemma note_year_mismatch_other round_num item key default :
  key ≠ "misc_notes" →
  dict_get (note_year_mismatch round_num item) key default = dict_get item key default.
Proof.
  intros Hne. unfold note_year_mismatch.
  destruct (_ && _); [|reflexivity].
  apply dict_get_set_ne. congruence.
Qed.

Lemma note_year_mismatch_notes round_num item :
  dict_get (note_year_mismatch round_num item) "misc_notes" (PStr "")
  = dict_get item "misc_notes" (PStr "")
  ∨ ∃ s, dict_get (note_year_mismatch round_num item) "misc_notes" (PStr "") = PStr s.
Proof.
  unfold note_year_mismatch. destruct (_ && _); [|by left].
  right. eexists. apply dict_get_set_eq.
Qed.

Lemma note_year_mismatch_misc_notes round_num item :
  dict_get (note_year_mismatch round_num item) "misc_notes" (PStr "")
  = if year_round_mismatch round_num item
    then PStr (Str.strip (str (dict_get item "misc_notes" (PStr ""))
                          +:+ " [Year-Round mismatch noted]"))
    else dict_get item "misc_notes" (PStr "").
Proof.
  unfold note_year_mismatch, year_round_mismatch. cbv zeta.
  destruct (_ && _); [apply dict_get_set_eq|reflexivity].
Qed.

(** C9, amended.  A record is built from every dictionary.  The four
    fields the client fills from its own arguments are these arguments
    as strings, the page number counted from 1.  Each of the eight
    fields it passes through [str] is the string that [str] gives for
    the value of the dictionary, the empty string when the key is
    missing.  Every other field but the notes is the value of the
    dictionary as it is: the empty string when the key is missing, a
    string only when the dictionary has one there.  The notes are the
    value of the dictionary when the year fits the round, and otherwise
    the string made of that value and the note on the mismatch, with
    white space at its ends taken off.  So all fields are strings once
    the text values of the dictionary are. *)
Theorem make_record_fields
    (district_name round_num pdf_name : string) (page_num : nat) (item : pydict) :
  ∃ record,
    make_record district_name round_num pdf_name page_num (PDict item) = Ok record
    ∧ district record = PStr district_name
    ∧ round record = PStr round_num
    ∧ source_file record = PStr pdf_name
    ∧ page_number record = PStr (pretty (page_num + 1))
    ∧ Forall (λ key, record_field key record
                     = Some (PStr (str (dict_get item key (PStr ""))))
                     ∧ (dict_lookup item key = None →
                        record_field key record = Some (PStr "")))
        numeric_keys
    ∧ Forall (λ key, key ≠ "misc_notes" →
                     record_field key record = Some (dict_get item key (PStr "")))
        text_keys
    ∧ misc_notes record
      = (if year_round_mismatch round_num item
         then PStr (Str.strip (str (dict_get item "misc_notes" (PStr ""))
                               +:+ " [Year-Round mismatch noted]"))
         else dict_get item "misc_notes" (PStr ""))
    ∧ (Forall (λ key, is_str (dict_get item key (PStr "")) = true) text_keys →
       Forall (λ kv, is_str kv.2 = true) (to_dict record)).
Proof.
  eexists. split; [reflexivity|].
  split; [reflexivity|]. split; [reflexivity|]. split; [reflexivity|].
  split; [reflexivity|].
  split.
  { apply Forall_forall. intros key Hin. unfold numeric_keys in Hin.
    repeat (apply elem_of_cons in Hin as [->|Hin];
            [match goal with
             | |- record_field ?k _ = _ ∧ _ =>
                 rewrite (note_year_mismatch_other round_num item k (PStr "")) by done
             end;
             split; [reflexivity|intros Hnone; by rewrite (dict_get_missing item _ _ Hnone)]|]).
    by apply elem_of_nil in Hin. }
  split.
  { apply Forall_forall. intros key Hin Hne.
    rewrite <- (note_year_mismatch_other round_num item key (PStr "") Hne).
    unfold text_keys in Hin.
    repeat (apply elem_of_cons in Hin as [->|Hin]; [try reflexivity; done|]).
    by apply elem_of_nil in Hin. }
  split; [apply note_year_mismatch_misc_notes|].
  intros Htext. unfold text_keys in Htext.
  repeat (apply Forall_cons in Htext as [? Htext]).
  unfold to_dict. cbn [district round source_file page_number software vendor school_name
    approx_level use_type host_type num_school_lic num_district_lic cost_per_lic cost_total
    contract_start_month contract_start_year contract_length_years install_month
    install_year quote_month quote_year misc_notes].
  repeat (apply Forall_cons; split;
          [cbn [snd]; try reflexivity;
           try (rewrite note_year_mismatch_other by done; assumption);
           try (destruct (note_year_mismatch_notes round_num item) as [->|[s ->]];
                [assumption|reflexivity])|]).
  by apply Forall_nil.
Qed.

(** C9 as stated fails: a null in the dictionary stays a null in the
    record. *)
Lemma all_fields_strings_counterexample :
  (∃ record,
     make_record "Lincoln" "1" "a.pdf" 0 (PDict [("software", PNone)]) = Ok record
     ∧ software record = PNone)
  ∧ ¬ all_fields_strings_as_stated.
Proof.
  split; [eexists; split; reflexivity|].
  intros H.
  specialize (H "Lincoln" "1" "a.pdf" 0 [("software", PNone)] _ eq_refl).
  rewrite Forall_forall in H.
  specialize (H ("Software", PNone)).
  assert (Hin : ("Software", PNone)
                ∈ to_dict (mkSoftwareRecord (PStr "Lincoln") (PStr "") (PStr "") PNone
                             (PStr "") (PStr "") (PStr "") (PStr "") (PStr "") (PStr "")
                             (PStr "") (PStr "") (PStr "") (PStr "") (PStr "") (PStr "")
                             (PStr "") (PStr "") (PStr "") (PStr "1") (PStr "a.pdf")
                             (PStr "1"))).
  { unfold to_dict. cbn. do 3 apply list_elem_of_further. apply list_elem_of_here. }
  specialize (H Hin). discriminate H.
Qed.

Lemma make_record_fields_witness :
  ∃ record,
    make_record "Lincoln" "1" "invoice.pdf" 0
      (PDict [("software", PStr "Reading Plus"); ("cost_total", PStr "1200.00")]) = Ok record
    ∧ Forall (λ kv, is_str kv.2 = true) (to_dict record).
Proof.
  destruct (make_record_fields "Lincoln" "1" "invoice.pdf" 0
              [("software", PStr "Reading Plus"); ("cost_total", PStr "1200.00")])
    as (record & Hrecord & _ & _ & _ & _ & _ & _ & _ & Hall).
  exists record. split; [exact Hrecord|].
  apply Hall. unfold text_keys. repeat (apply Forall_cons; split; [reflexivity|]).
  by apply Forall_nil.
Defined.

(** ** Strings *)

Lemma string_app_cons (x : ascii) (a b : string) : String x a +:+ b = String x (a +:+ b).
Proof. reflexivity. Qed.

Lemma string_app_nil_l (b : string) : "" +:+ b = b.
Proof. reflexivity. Qed.

Lemma string_app_assoc (a b c : string) : (a +:+ b) +:+ c = a +:+ (b +:+ c).
Proof.
  induction a as [|x a IH]; [reflexivity|].
  rewrite !string_app_cons. f_equal. exact IH.
Qed.

Lemma string_app_nil_r (a : string) : a +:+ "" = a.
Proof.
  induction a as [|x a IH]; [reflexivity|].
  rewrite string_app_cons. f_equal. exact IH.
Qed.

Lemma rev_app_spec (c d : string) : String.rev_app c d = String.rev c +:+ d.
Proof.
  unfold String.rev. revert d.
  induction c as [|y c IH]; intros d; cbn [String.rev_app]; [reflexivity|].
  rewrite (IH (String y d)), (IH (String y "")), string_app_assoc. reflexivity.
Qed.




Lemma prefix_app (sep s : string) : String.prefix sep (sep +:+ s) = true.
Proof.
  induction sep as [|x sep IH]; [by destruct s|].
  rewrite string_app_cons. cbn.
  destruct (ascii_dec x x); [exact IH|done].
Qed.





(** ** The trailing-comma repair *)





Section Recovery.

Variable json_loads : string -> option pyvalue.



End Recovery.

(** ** Splitting at the fence *)











(** ** The array span *)





(** ** Recovery *)






(** Strategy 3 on prose with brackets of its own: the span is not the
    array, and the array is lost. *)
Lemma prose_with_brackets_not_recovered :
  JsonDecoder.loads (Str.py "[{'software': ''}]") = Some (PList [PDict [("software", PStr "")]])
  ∧ recover JsonDecoder.loads (Str.py "See [1]: [{'software': ''}]") = Raise JSONDecodeError.
Proof. split; by vm_compute. Qed.

(** * Further properties *)

(** ** Sorting by insertion *)

Lemma insert_by_perm {A} (le : A → A → bool) x l : insert_by le x l ≡ₚ x :: l.
Proof.
  induction l as [|y l IH]; cbn; [done|].
  destruct (le x y); [done|]. rewrite IH. apply Permutation_swap.
Qed.

Lemma sort_by_perm {A} (le : A → A → bool) l : sort_by le l ≡ₚ l.
Proof.
  induction l as [|x l IH]; cbn; [done|].
  fold (sort_by le l). by rewrite insert_by_perm, IH.
Qed.

Lemma insert_by_fmap {A B} (f : A → B) (le : B → B → bool) x l :
  f <$> insert_by (λ a b, le (f a) (f b)) x l = insert_by le (f x) (f <$> l).
Proof.
  induction l as [|y l IH]; cbn; [done|].
  destruct (le (f x) (f y)); cbn; [done|]. by rewrite IH.
Qed.

Lemma sort_by_fmap {A B} (f : A → B) (le : B → B → bool) l :
  f <$> sort_by (λ a b, le (f a) (f b)) l = sort_by le (f <$> l).
Proof.
  induction l as [|x l IH]; cbn; [done|].
  fold (sort_by (λ a b, le (f a) (f b)) l). fold (sort_by le (f <$> l)).
  by rewrite insert_by_fmap, IH.
Qed.

Section SortByKey.

Context {A : Type} (key : A → nat).

Lemma insert_by_key_sorted x l :
  StronglySorted (λ a b, key a ≤ key b) l →
  StronglySorted (λ a b, key a ≤ key b) (insert_by (λ a b, key a <=? key b) x l).
Proof.
  induction 1 as [|y l Hl IH Hy]; cbn.
  - repeat constructor.
  - destruct (Nat.leb_spec (key x) (key y)) as [Hle|Hlt].
    + constructor; [by constructor|].
      constructor; [done|]. eapply Forall_impl; [exact Hy|]. cbn. lia.
    + constructor; [done|].
      rewrite (insert_by_perm _ x l). constructor; [lia|done].
Qed.

Lemma sort_by_key_sorted l :
  StronglySorted (λ a b, key a ≤ key b) (sort_by (λ a b, key a <=? key b) l).
Proof.
  induction l as [|x l IH]; cbn; [constructor|].
  by apply insert_by_key_sorted.
Qed.

Lemma insert_by_key_filter n x l :
  filter (λ a, key a = n) (insert_by (λ a b, key a <=? key b) x l)
  = filter (λ a, key a = n) (x :: l).
Proof.
  induction l as [|y l IH]; cbn; [done|].
  destruct (Nat.leb_spec (key x) (key y)) as [Hle|Hlt]; [done|].
  rewrite filter_cons, IH, !filter_cons.
  destruct (decide (key y = n)), (decide (key x = n)); try done. lia.
Qed.

Lemma sort_by_key_stable n l :
  filter (λ a, key a = n) (sort_by (λ a b, key a <=? key b) l)
  = filter (λ a, key a = n) l.
Proof.
  induction l as [|x l IH]; cbn; [done|].
  fold (sort_by (λ a b, key a <=? key b) l).
  by rewrite insert_by_key_filter, !filter_cons, IH.
Qed.

End SortByKey.

Lemma foldl_add_sum_list {A} (f : A → nat) l : ∀ acc,
  foldl (λ total x, total + f x) acc l = acc + sum_list (f <$> l).
Proof.
  induction l as [|x l IH]; intros acc; cbn; [lia|]. rewrite IH. lia.
Qed.

Lemma sum_list_take_le n (l : list nat) : sum_list (take n l) ≤ sum_list l.
Proof.
  revert n. induction l as [|x l IH]; intros [|n]; cbn; try lia.
  specialize (IH n). lia.
Qed.

(** X1.  Without a limit [get_pdfs_sorted_by_page_count] returns the
    PDFs of the folder, each once, by ascending page count; PDFs with
    the same page count, those that cannot be opened among the ones
    with none, keep the order in which the folder lists them. *)
Theorem get_pdfs_sorted_by_page_count_stable_sort (folder : Folder) :
  let sorted_pdfs := get_pdfs_sorted_by_page_count folder None in
  sorted_pdfs ≡ₚ folder_pdfs folder
  ∧ StronglySorted (λ p q, page_count p ≤ page_count q) sorted_pdfs
  ∧ ∀ n, filter (λ p, page_count p = n) sorted_pdfs
         = filter (λ p, page_count p = n) (folder_pdfs folder).
Proof.
  cbv zeta. unfold get_pdfs_sorted_by_page_count, apply_limit.
  split; [apply sort_by_perm|].
  split; [apply (sort_by_key_sorted page_count)|].
  intros n. apply (sort_by_key_stable page_count).
Qed.

(** X2.  A positive limit keeps the first [limit] PDFs of the sorted
    list: no PDF that is kept has more pages than one that is left
    out; a limit of zero, like no limit, keeps them all. *)
Theorem get_pdfs_sorted_by_page_count_limit (folder : Folder) (limit : nat) :
  let all_pdfs := get_pdfs_sorted_by_page_count folder None in
  let kept := get_pdfs_sorted_by_page_count folder (Some limit) in
  if limit is 0 then kept = all_pdfs
  else
    length kept = limit `min` length (folder_pdfs folder)
    ∧ ∃ left_out,
        all_pdfs = kept ++ left_out
        ∧ ∀ p q, p ∈ kept → q ∈ left_out → page_count p ≤ page_count q.
Proof.
  cbv zeta. unfold get_pdfs_sorted_by_page_count, apply_limit.
  destruct limit as [|n]; [done|].
  set (l := sort_by _ (folder_pdfs folder)).
  split.
  - rewrite length_take. f_equal. unfold l. by rewrite sort_by_perm.
  - exists (drop (S n) l). split; [by rewrite take_drop|].
    intros p q Hp Hq.
    pose proof (sort_by_key_sorted page_count (folder_pdfs folder)) as Hs.
    fold l in Hs. rewrite <- (take_drop (S n) l) in Hs.
    by apply (StronglySorted_app_1_elem_of _ _ _ _ _ Hs).
Qed.

(** X3.  [count_pdf_pages_in_folder] adds up the pages of every PDF of
    the folder, a PDF that cannot be opened counting for none: the
    total is that of the PDFs selected without a limit, and under a
    limit the selected PDFs never have more pages than the total. *)
Theorem count_pdf_pages_in_folder_total (folder : Folder) :
  count_pdf_pages_in_folder folder
  = sum_list (page_count <$> get_pdfs_sorted_by_page_count folder None)
  ∧ ∀ limit,
      sum_list (page_count <$> get_pdfs_sorted_by_page_count folder limit)
      ≤ count_pdf_pages_in_folder folder.
Proof.
  assert (Hall : count_pdf_pages_in_folder folder
                 = sum_list (page_count <$> get_pdfs_sorted_by_page_count folder None)).
  { unfold count_pdf_pages_in_folder, get_pdfs_sorted_by_page_count, apply_limit.
    rewrite foldl_add_sum_list. cbn. by rewrite sort_by_perm. }
  split; [exact Hall|].
  intros limit. rewrite Hall.
  unfold get_pdfs_sorted_by_page_count, apply_limit.
  destruct limit as [[|n]|]; try done.
  rewrite fmap_take. apply sum_list_take_le.
Qed.

(** ** Districts and round folders *)

Lemma insert_by_leb_sorted x l :
  Sorted (λ a b, String.leb a b = true) l →
  Sorted (λ a b, String.leb a b = true) (insert_by String.leb x l).
Proof.
  induction 1 as [|y l Hl IH Hy]; cbn.
  - repeat constructor.
  - destruct (String.leb x y) eqn:Hxy.
    + constructor; [by constructor|]. by constructor.
    + constructor; [done|].
      assert (Hyx : String.leb y x = true)
        by (destruct (String.leb_total x y) as [H|H]; [congruence|done]).
      destruct Hy as [|z l Hyz]; cbn; [by constructor|].
      destruct (String.leb x z); by constructor.
Qed.

(** X4.  [get_available_districts] lists the names in ascending order,
    and they are the names of the districts that a run without limits
    and without district names goes through, in the order in which it
    goes through them. *)
Theorem get_available_districts_run_order (json_loads : string → option pyvalue)
    (base_dir : list District) (limit_pdfs_per_round : option nat) :
  Sorted (λ a b, String.leb a b = true) (get_available_districts base_dir)
  ∧ ∃ district_folders,
      district_name <$> district_folders = get_available_districts base_dir
      ∧ process_all_districts json_loads base_dir None limit_pdfs_per_round
        = (all_records <-- process_districts json_loads district_folders
                             limit_pdfs_per_round [] ;;
           save_final_results all_records).
Proof.
  split.
  - unfold get_available_districts.
    match goal with |- Sorted _ (sort_by _ ?names) => induction names as [|x l IH] end;
      cbn; [constructor|].
    by apply insert_by_leb_sorted.
  - eexists. split; [|reflexivity].
    unfold get_available_districts, sorted_districts.
    apply (sort_by_fmap district_name String.leb).
Qed.

Lemma round_patterns_tokens :
  map_Forall (λ _ round_num, round_num ∈ ["1"; "2"; "3"; "4"; "5"]) round_patterns.
Proof. apply (bool_decide_unpack _). by vm_compute. Qed.

Lemma normalize_round_name_token folder_name round_num :
  normalize_round_name folder_name = Some round_num →
  round_num ∈ ["1"; "2"; "3"; "4"; "5"].
Proof. unfold normalize_round_name. apply round_patterns_tokens. Qed.

Lemma normalize_round_name_nonempty folder_name round_num :
  normalize_round_name folder_name = Some round_num → nonempty round_num = true.
Proof.
  intros H. apply normalize_round_name_token in H.
  repeat (apply elem_of_cons in H as [->|H]; [reflexivity|]).
  by apply elem_of_nil in H.
Qed.

(** What one step of the loop of [get_round_folders] does to the
    entries of the dictionary. *)
Lemma add_round_folder_lookup round_folders item r :
  add_round_folder round_folders item !! r = round_folders !! r
  ∨ (add_round_folder round_folders item !! r = Some item
     ∧ folder_is_dir item = true
     ∧ normalize_round_name (folder_name item) = Some r).
Proof.
  unfold add_round_folder.
  destruct (folder_is_dir item) eqn:Hdir; [|by left].
  destruct (normalize_round_name (folder_name item)) as [round_num|] eqn:Hn; [|by left].
  destruct (nonempty round_num); [|by left].
  destruct (decide (r = round_num)) as [->|Hne].
  - destruct (round_folders !! round_num) as [current|] eqn:Hc.
    + destruct (_ || _); [|by left]. right. by rewrite lookup_insert_eq.
    + right. by rewrite lookup_insert_eq.
  - left. destruct (round_folders !! round_num) as [current|].
    + destruct (_ || _); [|done]. by rewrite lookup_insert_ne.
    + by rewrite lookup_insert_ne.
Qed.

Lemma add_round_folder_is_Some round_folders item r :
  is_Some (round_folders !! r) → is_Some (add_round_folder round_folders item !! r).
Proof.
  intros H. destruct (add_round_folder_lookup round_folders item r) as [->|[-> _]]; eauto.
Qed.

Lemma add_round_folder_new round_folders item r :
  folder_is_dir item = true → normalize_round_name (folder_name item) = Some r →
  is_Some (add_round_folder round_folders item !! r).
Proof.
  intros Hdir Hn. unfold add_round_folder.
  rewrite Hdir, Hn, (normalize_round_name_nonempty _ _ Hn).
  destruct (round_folders !! r) as [current|] eqn:Hc.
  - destruct (_ || _); [by rewrite lookup_insert_eq|by rewrite Hc].
  - by rewrite lookup_insert_eq.
Qed.

Lemma foldl_add_round_folder_sound items : ∀ round_folders r folder,
  foldl add_round_folder round_folders items !! r = Some folder →
  round_folders !! r = Some folder
  ∨ (folder ∈ items ∧ folder_is_dir folder = true
     ∧ normalize_round_name (folder_name folder) = Some r).
Proof.
  induction items as [|item items IH]; intros round_folders r folder H; cbn in H; [by left|].
  apply IH in H as [H|(Hin & Hdir & Hn)].
  - destruct (add_round_folder_lookup round_folders item r) as [E|(E & Hdir & Hn)];
      rewrite E in H; [by left|].
    injection H as <-. right. split; [apply list_elem_of_here|done].
  - right. split; [by apply list_elem_of_further|done].
Qed.

Lemma foldl_add_round_folder_is_Some items : ∀ round_folders r,
  is_Some (round_folders !! r) →
  is_Some (foldl add_round_folder round_folders items !! r).
Proof.
  induction items as [|item items IH]; intros round_folders r H; cbn; [done|].
  by apply IH, add_round_folder_is_Some.
Qed.

Lemma foldl_add_round_folder_complete items : ∀ round_folders r item,
  item ∈ items → folder_is_dir item = true →
  normalize_round_name (folder_name item) = Some r →
  is_Some (foldl add_round_folder round_folders items !! r).
Proof.
  induction items as [|x items IH]; intros round_folders r item Hin Hdir Hn; cbn.
  - by apply elem_of_nil in Hin.
  - apply elem_of_cons in Hin as [->|Hin].
    + by apply foldl_add_round_folder_is_Some, add_round_folder_new.
    + by eapply IH.
Qed.

(** X5.  The dictionary of [get_round_folders] has an entry for a round
    exactly when some directory of the district has a name of that
    round; the folder it gives for a round is one of these directories;
    and its keys are among the tokens 1 to 5. *)
Theorem get_round_folders_entries (items : list Folder) (r : string) :
  (is_Some (get_round_folders (Some items) !! r)
   ↔ ∃ item, item ∈ items ∧ folder_is_dir item = true
             ∧ normalize_round_name (folder_name item) = Some r)
  ∧ (∀ folder, get_round_folders (Some items) !! r = Some folder →
       folder ∈ items ∧ folder_is_dir folder = true
       ∧ normalize_round_name (folder_name folder) = Some r
       ∧ r ∈ ["1"; "2"; "3"; "4"; "5"]).
Proof.
  assert (Hsound : ∀ folder, get_round_folders (Some items) !! r = Some folder →
            folder ∈ items ∧ folder_is_dir folder = true
            ∧ normalize_round_name (folder_name folder) = Some r).
  { intros folder H. cbn in H.
    apply foldl_add_round_folder_sound in H as [H|H]; [|done].
    by rewrite lookup_empty in H. }
  split; [split|].
  - intros [folder H]. exists folder. by apply Hsound.
  - intros (item & Hin & Hdir & Hn). cbn.
    by eapply foldl_add_round_folder_complete.
  - intros folder H. destruct (Hsound folder H) as (Hin & Hdir & Hn).
    repeat split; try done. by eapply normalize_round_name_token.
Qed.

(** The entries for the rounds 1 to 4 do not depend on the other
    entries of the district. *)
Lemma foldl_add_round_folder_1_to_4 items : ∀ round_folders round_folders',
  (∀ r, r ∈ round_tokens → round_folders !! r = round_folders' !! r) →
  ∀ r, r ∈ round_tokens →
    foldl add_round_folder round_folders
      (filter (λ item, is_round_1_to_4 item = true) items) !! r
    = foldl add_round_folder round_folders' items !! r.
Proof.
  induction items as [|item items IH]; intros m m' Hm r Hr; [by apply Hm|].
  rewrite filter_cons. destruct (decide (is_round_1_to_4 item = true)) as [Hi|Hi];
    cbn [foldl].
  - apply IH; [|done]. intros r' Hr'.
    unfold is_round_1_to_4 in Hi. apply andb_true_iff in Hi as [Hdir Hi].
    unfold add_round_folder. rewrite Hdir.
    destruct (normalize_round_name (folder_name item)) as [round_num|]; [|done].
    apply bool_decide_eq_true in Hi.
    destruct (nonempty round_num); [|by apply Hm].
    rewrite <- (Hm round_num Hi).
    destruct (m !! round_num) as [current|].
    + destruct (_ || _); [|by apply Hm].
      destruct (decide (r' = round_num)) as [->|Hne];
        [by rewrite !lookup_insert_eq|rewrite !lookup_insert_ne by done; by apply Hm].
    + destruct (decide (r' = round_num)) as [->|Hne];
        [by rewrite !lookup_insert_eq|rewrite !lookup_insert_ne by done; by apply Hm].
  - apply IH; [|done]. intros r' Hr'. rewrite (Hm r' Hr').
    destruct (add_round_folder_lookup m' item r') as [E|(E & Hdir & Hn)]; [done|].
    exfalso. apply Hi. unfold is_round_1_to_4. rewrite Hdir, Hn. cbn.
    by apply bool_decide_eq_true.
Qed.

Lemma process_rounds_ext (json_loads : string → option pyvalue)
    round_folders round_folders' limit district rounds : ∀ all_records st,
  (∀ r, r ∈ rounds → round_folders !! r = round_folders' !! r) →
  process_rounds json_loads round_folders limit district rounds all_records st
  = process_rounds json_loads round_folders' limit district rounds all_records st.
Proof.
  induction rounds as [|round_num rounds IH]; intros all_records st H; cbn; [done|].
  rewrite (H round_num) by apply list_elem_of_here.
  unfold bind. destruct (match round_folders' !! round_num with _ => _ end st) as [[recs|e] st'];
    [|done].
  apply IH. intros r Hr. by apply H, list_elem_of_further.
Qed.

(** X6.  A run reads the folders of the rounds 1 to 4 only: entries of
    a district that are no directories, directories with other names,
    and the folder of round 5, which the normaliser knows, can be
    removed from every district without any change to what the run
    returns, writes, counts or records. *)
Theorem process_districts_reads_rounds_1_to_4 (json_loads : string → option pyvalue)
    (district_folders : list District) (limit_pdfs_per_round : option nat) :
  ∀ all_records st,
    process_districts json_loads (only_rounds_1_to_4 <$> district_folders)
      limit_pdfs_per_round all_records st
    = process_districts json_loads district_folders limit_pdfs_per_round all_records st.
Proof.
  induction district_folders as [|d ds IH]; intros all_records st; [done|].
  rewrite fmap_cons. cbn [process_districts].
  change (district_name (only_rounds_1_to_4 d)) with (district_name d).
  unfold bind.
  rewrite (process_rounds_ext json_loads
             (get_round_folders (Some (district_items (only_rounds_1_to_4 d))))
             (get_round_folders (Some (district_items d))));
    [|by intros r Hr; apply foldl_add_round_folder_1_to_4].
  destruct (process_rounds _ _ _ _ _ _ _) as [[recs|e] st1]; [|done].
  unfold modify, gets.
  destruct (_ =? 0).
  - destruct (save_intermediate_results recs _) as [[[]|e] st2]; [|done]. apply IH.
  - cbn. apply IH.
Qed.

(** ** Names of round folders *)

Lemma lower_char_isspace c : Str.isspace c = true → Str.lower_char c = c.
Proof. destruct c as [[] [] [] [] [] [] [] []]; by vm_compute. Qed.

Lemma lower_app (a b : string) : Str.lower (a +:+ b) = Str.lower a +:+ Str.lower b.
Proof.
  induction a as [|c a IH]; [by rewrite !string_app_nil_l|].
  rewrite string_app_cons. cbn [Str.lower]. by rewrite string_app_cons, IH.
Qed.

Lemma lower_all_isspace s : all_isspace s = true → Str.lower s = s.
Proof.
  unfold all_isspace. induction s as [|c s IH]; cbn; [done|].
  intros [Hc Hs]%andb_true_iff. by rewrite lower_char_isspace, IH.
Qed.

Lemma lstrip_app_isspace pre t : all_isspace pre = true → Str.lstrip (pre +:+ t) = Str.lstrip t.
Proof.
  unfold all_isspace. induction pre as [|c pre IH]; cbn [list_ascii_of_string forallb].
  - by rewrite string_app_nil_l.
  - intros [Hc Hs]%andb_true_iff. rewrite string_app_cons. cbn [Str.lstrip].
    rewrite Hc. by apply IH.
Qed.

Lemma lstrip_all_isspace s : all_isspace s = true → Str.lstrip s = "".
Proof.
  intros H. rewrite <- (string_app_nil_r s). by rewrite lstrip_app_isspace.
Qed.

Lemma rev_cons c s : String.rev (String c s) = String.rev s +:+ String c "".
Proof. unfold String.rev at 1. cbn [String.rev_app]. apply rev_app_spec. Qed.

Lemma rev_app (a b : string) : String.rev (a +:+ b) = String.rev b +:+ String.rev a.
Proof.
  induction a as [|c a IH].
  - rewrite string_app_nil_l. change (String.rev "") with "". by rewrite string_app_nil_r.
  - by rewrite string_app_cons, !rev_cons, IH, string_app_assoc.
Qed.

Lemma all_isspace_app a b : all_isspace (a +:+ b) = all_isspace a && all_isspace b.
Proof.
  unfold all_isspace. induction a as [|c a IH].
  - by rewrite string_app_nil_l.
  - rewrite string_app_cons. cbn [list_ascii_of_string forallb]. by rewrite IH, andb_assoc.
Qed.

Lemma all_isspace_rev s : all_isspace (String.rev s) = all_isspace s.
Proof.
  induction s as [|c s IH]; [done|].
  rewrite rev_cons, all_isspace_app, IH.
  unfold all_isspace. cbn [list_ascii_of_string forallb].
  by rewrite andb_true_r, andb_comm.
Qed.

Lemma rstrip_app_isspace t post :
  all_isspace post = true → Str.rstrip (t +:+ post) = Str.rstrip t.
Proof.
  intros H. unfold Str.rstrip. rewrite rev_app, lstrip_app_isspace; [done|].
  by rewrite all_isspace_rev.
Qed.

Lemma strip_app_isspace pre t post :
  all_isspace pre = true → all_isspace post = true →
  Str.strip (pre +:+ t +:+ post) = Str.strip t.
Proof.
  intros Hpre Hpost. unfold Str.strip. rewrite lstrip_app_isspace by done.
  induction t as [|c t IH].
  - rewrite string_app_nil_l, lstrip_all_isspace by done. done.
  - rewrite string_app_cons. cbn [Str.lstrip]. destruct (Str.isspace c); [exact IH|].
    rewrite <- string_app_cons. by apply rstrip_app_isspace.
Qed.

(** X7.  [normalize_round_name] reads a folder name without regard to
    the case of its letters and to white space before and after it: two
    names that agree up to these give the same round, or both none. *)
Theorem normalize_round_name_case_and_space (pre post folder_name folder_name' : string) :
  all_isspace pre = true → all_isspace post = true →
  Str.lower folder_name = Str.lower folder_name' →
  normalize_round_name (pre +:+ folder_name +:+ post) = normalize_round_name folder_name'.
Proof.
  intros Hpre Hpost Hlower. unfold normalize_round_name. cbv zeta. f_equal.
  rewrite !lower_app, (lower_all_isspace pre), (lower_all_isspace post), Hlower by done.
  by apply strip_app_isspace.
Qed.

Lemma normalize_round_name_case_and_space_witness :
  normalize_round_name (" " +:+ "ROUND 1" +:+ "  ") = normalize_round_name "Round 1"
  ∧ normalize_round_name "Round 1" = Some "1".
Proof.
  split; [|reflexivity].
  apply (normalize_round_name_case_and_space " " "  " "ROUND 1" "Round 1");
    reflexivity.
Defined.

(** ** Identifiers *)

Lemma app_slash_inj (a a' b b' : string) :
  has_char "/" a = false → has_char "/" a' = false →
  a +:+ String "/" b = a' +:+ String "/" b' → a = a' ∧ b = b'.
Proof.
  revert a'. induction a as [|c a IH]; intros [|c' a']; cbn [has_char];
    rewrite ?string_app_nil_l, ?string_app_cons.
  - intros _ _ H. by injection H.
  - intros _ [Hc _]%orb_false_iff H. injection H as <- _. by vm_compute in Hc.
  - intros [Hc _]%orb_false_iff _ H. injection H as -> _. by vm_compute in Hc.
  - intros [_ Ha]%orb_false_iff [_ Ha']%orb_false_iff H. injection H as -> H.
    destruct (IH a' Ha Ha' H) as [-> ->]. done.
Qed.

(** X8.  When the district names and the round tokens contain no
    slash, two PDFs have the same identifier only if they have the same
    file name, district and round. *)
Theorem get_pdf_identifier_inj (pdf_name district round_num pdf_name' district' round_num' : string) :
  has_char "/" district = false → has_char "/" district' = false →
  has_char "/" round_num = false → has_char "/" round_num' = false →
  get_pdf_identifier pdf_name district round_num
  = get_pdf_identifier pdf_name' district' round_num'
  ↔ pdf_name = pdf_name' ∧ district = district' ∧ round_num = round_num'.
Proof.
  intros Hd Hd' Hr Hr'. split; [|by intros (-> & -> & ->)].
  unfold get_pdf_identifier. rewrite !string_app_cons, !string_app_nil_l.
  intros H. apply app_slash_inj in H as [-> H]; [|done..].
  apply app_slash_inj in H as [-> ->]; done.
Qed.

Lemma get_pdf_identifier_inj_witness :
  get_pdf_identifier "invoice.pdf" "Lincoln" "1"
  ≠ get_pdf_identifier "invoice.pdf" "Lincoln" "2".
Proof.
  intros H.
  apply (get_pdf_identifier_inj "invoice.pdf" "Lincoln" "1" "invoice.pdf" "Lincoln" "2"
           eq_refl eq_refl eq_refl eq_refl) in H as (_ & _ & H).
  discriminate H.
Defined.

(** ** Counters of the extraction client and of process_pdf *)

Lemma posts_app tr1 tr2 : posts (tr1 ++ tr2) = posts tr1 + posts tr2.
Proof. unfold posts. by rewrite filter_app, length_app. Qed.

Lemma posts_post pdf_name page_num attempt : posts [EvPost pdf_name page_num attempt] = 1.
Proof. reflexivity. Qed.

Lemma posts_sleep d : posts [EvSleep d] = 0.
Proof. reflexivity. Qed.

Lemma posts_nil : posts [] = 0.
Proof. reflexivity. Qed.

Section Counters.

Variable json_loads : string → option pyvalue.

(** What a call of the client does to the counters: every request is
    counted when it is sent; the records counted are those returned. *)
Lemma analyze_page_counts post image_bytes text_content district round_num pdf_name page_num st :
  let out := analyze_page_with_gpt json_loads post image_bytes text_content
               district round_num pdf_name page_num st in
  ∃ s evs,
    out.2 = advanced st s evs
    ∧ api_calls_made s = api_calls_made (stats st) + posts evs
    ∧ posts evs ≤ 3
    ∧ errors_encountered (stats st) ≤ errors_encountered s ≤ errors_encountered (stats st) + 1
    ∧ districts_processed s = districts_processed (stats st)
    ∧ ∀ records, out.1 = Ok records →
        software_records_extracted s
        = software_records_extracted (stats st) + length records.
Proof.
  cbv zeta. unfold analyze_page_with_gpt.
  destruct (nonempty image_bytes); cbn [negb].
  - unfold max_retries. run_retry_loop; cbn [fst snd];
      rewrite (set_stats_advanced incr_api_calls_made st);
      repeat (rewrite advanced_emit || rewrite advanced_set_stats);
      (eexists; eexists; split; [reflexivity|]);
      rewrite ?posts_app, ?posts_post, ?posts_sleep, ?posts_nil;
      (split; [cbn; lia|]); (split; [cbn; lia|]); (split; [cbn; lia|]);
      (split; [reflexivity|]);
      intros records' Hr; inversion Hr; subst; cbn; lia.
  - exists (stats st), []. cbn. split; [apply advanced_refl|].
    repeat split; try lia. intros records Hr. inversion Hr. cbn. lia.
Qed.

Variable pdf : Pdf.
Variables district round_num : string.

Lemma process_pages_counts pages : ∀ page_num all_records st,
  let out := process_pages json_loads pdf district round_num pages page_num all_records st in
  ∃ s evs,
    out.2 = advanced st s evs
    ∧ api_calls_made s = api_calls_made (stats st) + posts evs
    ∧ posts evs ≤ 3 * length pages
    ∧ errors_encountered (stats st) ≤ errors_encountered s
      ≤ errors_encountered (stats st) + length pages
    ∧ districts_processed s = districts_processed (stats st)
    ∧ ∀ records, out.1 = Ok records →
        software_records_extracted s + length all_records
        = software_records_extracted (stats st) + length records.
Proof.
  induction pages as [|page pages IH]; intros page_num all_records st; cbv zeta.
  - exists (stats st), []. cbn. split; [apply advanced_refl|].
    repeat split; try lia. intros records Hr. inversion Hr. lia.
  - rewrite process_pages_cons. cbv zeta.
    set (st1 := emit (EvExtract (pdf_path pdf) page_num) st).
    assert (Hst1 : st1 = advanced st (stats st) [EvExtract (pdf_path pdf) page_num])
      by reflexivity.
    destruct (nonempty (page_content page).1).
    + pose proof (analyze_page_counts (page_post page) (page_content page).1
                    (page_content page).2 district round_num (pdf_name pdf) page_num st1)
        as (s2 & evs2 & Hout & Hapi & Hposts & Herr & Hdp & Hrec).
      destruct (analyze_page_with_gpt _ _ _ _ _ _ _ _ _) as [[records|e] st2];
        cbn [fst snd] in *; subst st2; rewrite Hst1, advanced_advanced;
        rewrite Hst1 in Hapi, Herr, Hdp, Hrec; cbn [stats advanced] in Hapi, Herr, Hdp, Hrec.
      * specialize (Hrec records eq_refl).
        specialize (IH (S page_num) (all_records ++ records)
                       (emit (EvSleep 1.5) (set_stats incr_pages_analyzed
                          (advanced st s2 ([EvExtract (pdf_path pdf) page_num] ++ evs2))))).
        cbv zeta in IH. destruct IH as (s3 & evs3 & Hout3 & Hapi3 & Hposts3 & Herr3 & Hdp3 & Hrec3).
        rewrite advanced_set_stats, advanced_emit in Hout3, Hapi3, Herr3, Hdp3, Hrec3.
        rewrite advanced_set_stats, advanced_emit.
        rewrite advanced_advanced in Hout3.
        cbn [stats advanced] in Hapi3, Herr3, Hdp3, Hrec3.
        eexists; eexists. split; [exact Hout3|].
        rewrite !posts_app. change (posts [EvExtract (pdf_path pdf) page_num]) with 0.
        change (posts [EvSleep 1.5]) with 0. cbn [length].
        split; [destruct s2; cbn in *; lia|].
        split; [lia|].
        split; [destruct s2; cbn in *; lia|].
        split; [destruct s2; cbn in *; lia|].
        intros records' Hr. specialize (Hrec3 records' Hr).
        rewrite length_app in Hrec3. destruct s2; cbn in *; lia.
      * eexists; eexists. split; [reflexivity|].
        rewrite !posts_app. change (posts [EvExtract (pdf_path pdf) page_num]) with 0.
        cbn [length]. split; [lia|]. split; [lia|]. split; [lia|]. split; [done|].
        intros records' Hr. discriminate Hr.
    + specialize (IH (S page_num) all_records
                     (emit (EvSleep 1.5) (set_stats incr_pages_analyzed st1))).
      cbv zeta in IH. destruct IH as (s3 & evs3 & Hout3 & Hapi3 & Hposts3 & Herr3 & Hdp3 & Hrec3).
      rewrite Hst1, advanced_set_stats, advanced_emit in Hout3, Hapi3, Herr3, Hdp3, Hrec3.
      rewrite Hst1, advanced_set_stats, advanced_emit.
      rewrite advanced_advanced in Hout3.
      cbn [stats advanced] in Hapi3, Herr3, Hdp3, Hrec3.
      eexists; eexists. split; [exact Hout3|].
      rewrite !posts_app. change (posts [EvExtract (pdf_path pdf) page_num]) with 0.
      change (posts [EvSleep 1.5]) with 0.
      cbn [length].
      split; [destruct (stats st); cbn in *; lia|].
      split; [lia|].
      split; [destruct (stats st); cbn in *; lia|].
      split; [destruct (stats st); cbn in *; lia|].
      intros records' Hr. specialize (Hrec3 records' Hr).
      destruct (stats st); cbn in *; lia.
Qed.

End Counters.

Lemma events_since_refl st : events_since st st = [].
Proof. apply events_since_app. by rewrite app_nil_r. Qed.

(** X9.  The first attempt that succeeds ends the call: when the
    attempts before attempt [k] fail, in whatever way, and attempt [k]
    gives records, the client returns these records after [k + 1]
    requests, counts them, and counts no error for the attempts that
    failed. *)
Theorem analyze_page_first_success
    (json_loads : string → option pyvalue) (post : nat → post_result)
    (image_bytes text_content district round_num pdf_name : string) (page_num k : nat)
    (records : list SoftwareRecord) (st : Analyzer) :
  nonempty image_bytes = true →
  k < max_retries →
  (∀ j, j < k →
     ∃ f, classify json_loads (post j) district round_num pdf_name page_num = Fails f) →
  classify json_loads (post k) district round_num pdf_name page_num = Succeeds records →
  let out := analyze_page_with_gpt json_loads post image_bytes text_content
               district round_num pdf_name page_num st in
  out.1 = Ok records
  ∧ posts (events_since st out.2) = S k
  ∧ api_calls_made (stats out.2) = api_calls_made (stats st) + S k
  ∧ errors_encountered (stats out.2) = errors_encountered (stats st)
  ∧ software_records_extracted (stats out.2)
    = software_records_extracted (stats st) + length records.
Proof.
  intros Himg Hk Hfail Hok. cbv zeta. unfold analyze_page_with_gpt.
  rewrite Himg. cbn [negb]. unfold max_retries in *.
  assert (H0 : k = 0 ∨ ∃ f, classify json_loads (post 0) district round_num pdf_name page_num
                             = Fails f)
    by (destruct k; [by left|right; apply Hfail; lia]).
  assert (H1 : k ≤ 1 ∨ ∃ f, classify json_loads (post 1) district round_num pdf_name page_num
                             = Fails f)
    by (destruct k as [|[|k]]; [left; lia|left; lia|right; apply Hfail; lia]).
  rewrite retry_loop_step. cbv zeta.
  rewrite (set_stats_advanced incr_api_calls_made st).
  destruct H0 as [->|[f0 E0]].
  { rewrite Hok. cbn [fst snd].
    repeat (rewrite advanced_emit || rewrite advanced_set_stats).
    rewrite events_since_advanced. cbn [stats advanced].
    rewrite ?posts_app, ?posts_post, ?posts_sleep, ?posts_nil. cbn. repeat split; lia. }
  assert (Hk0 : k ≠ 0) by (intros ->; congruence).
  rewrite E0. cbn [Nat.eqb].
  destruct H1 as [Hk1|[f1 E1]].
  { assert (k = 1) as -> by lia.
    destruct f0; rewrite retry_loop_step; cbv zeta; rewrite Hok; cbn [fst snd];
      repeat (rewrite advanced_emit || rewrite advanced_set_stats);
      rewrite events_since_advanced; cbn [stats advanced];
      rewrite ?posts_app, ?posts_post, ?posts_sleep, ?posts_nil; cbn; repeat split; lia. }
  assert (k = 2) as ->.
  { destruct k as [|[|[|k]]]; try lia. congruence. }
  destruct f0; rewrite retry_loop_step; cbv zeta; rewrite E1; cbn [Nat.eqb];
    destruct f1; rewrite retry_loop_step; cbv zeta; rewrite Hok; cbn [fst snd];
    repeat (rewrite advanced_emit || rewrite advanced_set_stats);
    rewrite events_since_advanced; cbn [stats advanced];
    rewrite ?posts_app, ?posts_post, ?posts_sleep, ?posts_nil; cbn; repeat split; lia.
Qed.

Lemma analyze_page_first_success_witness :
  let st0 := init NoFile None in
  let out := analyze_page_with_gpt JsonDecoder.loads post_recovering "png" ""
               "Lincoln" "1" "invoice.pdf" 0 st0 in
  ∃ records,
    out.1 = Ok records ∧ length records = 1
    ∧ api_calls_made (stats out.2) = 3
    ∧ errors_encountered (stats out.2) = 0.
Proof.
  cbv zeta.
  destruct (classify JsonDecoder.loads (post_recovering 2) "Lincoln" "1" "invoice.pdf" 0)
    as [records| |] eqn:E; [|by vm_compute in E..].
  assert (Hfail : ∀ j, j < 2 →
            ∃ f, classify JsonDecoder.loads (post_recovering j) "Lincoln" "1" "invoice.pdf" 0
                 = Fails f).
  { intros [|[|j]] Hj; [by exists Transport|exists MalformedJSON; by vm_compute|lia]. }
  destruct (analyze_page_first_success JsonDecoder.loads post_recovering "png" ""
              "Lincoln" "1" "invoice.pdf" 0 2 records (init NoFile None)
              eq_refl (le_n 3) Hfail E)
    as (Hout & _ & Hapi & Herr & _).
  exists records. split; [exact Hout|].
  split; [|split; [exact Hapi|exact Herr]].
  vm_compute in E. by injection E as <-.
Defined.

(** X10.  The counters of [process_pdf]: every request sent for the
    PDF is counted in [api_calls_made], and there are at most 3 for each
    page; at most one error is counted for each page, or one for a file
    that cannot be opened; and when [process_pdf] returns,
    [software_records_extracted] has grown by the number of records
    returned. *)
Theorem process_pdf_counters
    (json_loads : string → option pyvalue) (pdf : Pdf) (district round_num : string)
    (st : Analyzer) :
  let out := process_pdf json_loads pdf district round_num st in
  let requests := posts (events_since st out.2) in
  api_calls_made (stats out.2) = api_calls_made (stats st) + requests
  ∧ requests ≤ 3 * page_count pdf
  ∧ errors_encountered (stats st) ≤ errors_encountered (stats out.2)
    ≤ errors_encountered (stats st) + 1 `max` page_count pdf
  ∧ ∀ records, out.1 = Ok records →
      software_records_extracted (stats out.2)
      = software_records_extracted (stats st) + length records.
Proof.
  cbv zeta. rewrite process_pdf_eq. cbv zeta. unfold page_count.
  destruct (bool_decide _).
  { cbn [fst snd]. rewrite events_since_refl. cbn.
    repeat split; try lia. intros records Hr. inversion Hr. cbn. lia. }
  destruct (pdf_pages pdf) as [pages|].
  - pose proof (process_pages_counts json_loads pdf district round_num pages 0 []
                  (emit (EvOpen (pdf_path pdf)) st))
      as (s & evs & Hout & Hapi & Hposts & Herr & _ & Hrec).
    pose proof (process_pages_spec json_loads pdf district round_num pages 0 []
                  (emit (EvOpen (pdf_path pdf)) st))
      as (s' & evs' & _ & _ & _ & Hint).
    cbv zeta in *.
    destruct (process_pages _ _ _ _ _ _ _ _) as [[all_records|e] st2];
      cbn [fst snd] in *; subst st2;
      rewrite emit_advanced, advanced_advanced in *;
      cbn [stats advanced] in Hapi, Herr, Hrec.
    + specialize (Hrec all_records eq_refl). cbn [length] in Hrec.
      rewrite advanced_set_stats, mark_pdf_as_processed_eq. cbv zeta.
      match goal with |- context [if ?b then _ else _] => destruct b end; cbn [fst snd stats].
      * rewrite (events_since_app st _ (([EvOpen (pdf_path pdf)] ++ evs) ++
                   [EvSaveTracker (processed_pdfs st ∪
                      {[get_pdf_identifier (pdf_name pdf) district round_num]})]))
          by (cbn [trace advanced processed_pdfs]; by rewrite <- app_assoc).
        rewrite !posts_app.
        change (posts [EvOpen (pdf_path pdf)]) with 0.
        change (posts [EvSaveTracker _]) with 0.
        repeat split; try (destruct s; cbn in *; lia).
        intros records Hr. inversion Hr; subst. destruct s; cbn in *; lia.
      * rewrite (events_since_app st _ ([EvOpen (pdf_path pdf)] ++ evs)) by reflexivity.
        rewrite !posts_app.
        change (posts [EvOpen (pdf_path pdf)]) with 0.
        repeat split; try (destruct s; cbn in *; lia).
        intros records Hr. inversion Hr; subst. destruct s; cbn in *; lia.
    + assert (e = KeyboardInterrupt) as -> by exact Hint.
      cbn [is_Exception fst snd stats advanced].
      rewrite events_since_advanced, !posts_app.
      change (posts [EvOpen (pdf_path pdf)]) with 0.
      repeat split; try lia. intros records Hr. discriminate Hr.
  - cbn [fst snd]. rewrite emit_advanced, advanced_set_stats, events_since_advanced.
    change (posts [EvOpen (pdf_path pdf)]) with 0. cbn [stats advanced].
    repeat split; try (cbn; lia). intros records Hr. inversion Hr. cbn. lia.
Qed.

(** The page loop over pages that cannot be rendered: nothing is sent
    and nothing but the pages is counted. *)
Lemma process_pages_unrenderable (json_loads : string → option pyvalue)
    pdf district round_num pages : ∀ page_num all_records st,
  Forall (λ page, page_render page = None) pages →
  ∃ s evs,
    process_pages json_loads pdf district round_num pages page_num all_records st
    = (Ok all_records, advanced st s evs)
    ∧ posts evs = 0
    ∧ s = Nat.iter (length pages) incr_pages_analyzed (stats st).
Proof.
  induction pages as [|page pages IH]; intros page_num all_records st Hall.
  - exists (stats st), []. cbn. by rewrite <- advanced_refl.
  - apply Forall_cons in Hall as [Hpage Hall].
    rewrite process_pages_cons. cbv zeta. unfold page_content. rewrite Hpage.
    cbn [fst nonempty String.eqb negb].
    destruct (IH (S page_num) all_records
                (emit (EvSleep 1.5) (set_stats incr_pages_analyzed
                   (emit (EvExtract (pdf_path pdf) page_num) st))) Hall)
      as (s & evs & Heq & Hposts & Hs).
    rewrite (emit_advanced (EvExtract (pdf_path pdf) page_num) st),
      advanced_set_stats, advanced_emit in Heq, Hs.
    rewrite (emit_advanced (EvExtract (pdf_path pdf) page_num) st),
      advanced_set_stats, advanced_emit.
    rewrite Heq, advanced_advanced.
    eexists; eexists. split; [reflexivity|].
    rewrite !posts_app, Hposts. split; [reflexivity|].
    rewrite Hs. cbn [stats advanced length]. by rewrite Nat.iter_succ_r.
Qed.

Lemma iter_incr_pages_analyzed n s :
  Nat.iter n incr_pages_analyzed s
  = mkStats (districts_processed s) (pdfs_processed s) (pages_analyzed s + n)
            (software_records_extracted s) (api_calls_made s) (errors_encountered s).
Proof.
  induction n as [|n IH].
  - destruct s. cbn. f_equal. lia.
  - rewrite Nat.iter_succ, IH. unfold incr_pages_analyzed. cbn. f_equal. lia.
Qed.

(** X11.  A PDF that opens and none of whose pages can be rendered is
    recorded as processed all the same: [process_pdf] returns no
    record, sends no request and counts no error, only the pages and
    the PDF, and the next call for the PDF skips it. *)
Theorem process_pdf_unrenderable_pages
    (json_loads : string → option pyvalue) (pdf : Pdf) (district round_num : string)
    (pages : list Page) (st : Analyzer) :
  pdf_pages pdf = Some pages →
  Forall (λ page, page_render page = None) pages →
  get_pdf_identifier (pdf_name pdf) district round_num ∉ processed_pdfs st →
  let out := process_pdf json_loads pdf district round_num st in
  out.1 = Ok []
  ∧ get_pdf_identifier (pdf_name pdf) district round_num ∈ processed_pdfs out.2
  ∧ posts (events_since st out.2) = 0
  ∧ stats out.2
    = mkStats (districts_processed (stats st)) (S (pdfs_processed (stats st)))
              (pages_analyzed (stats st) + length pages)
              (software_records_extracted (stats st)) (api_calls_made (stats st))
              (errors_encountered (stats st))
  ∧ process_pdf json_loads pdf district round_num out.2 = (Ok [], out.2).
Proof.
  intros Hpages Hall Hnew. cbv zeta.
  assert (Hrun : ∃ st',
            process_pdf json_loads pdf district round_num st = (Ok [], st')
            ∧ processed_pdfs st'
              = processed_pdfs st ∪ {[get_pdf_identifier (pdf_name pdf) district round_num]}
            ∧ posts (events_since st st') = 0
            ∧ stats st'
              = incr_pdfs_processed (Nat.iter (length pages) incr_pages_analyzed (stats st))).
  { rewrite process_pdf_eq, bool_decide_eq_false_2 by done. cbv zeta. rewrite Hpages.
    destruct (process_pages_unrenderable json_loads pdf district round_num pages 0 []
                (emit (EvOpen (pdf_path pdf)) st) Hall) as (s & evs & -> & Hposts & ->).
    rewrite emit_advanced, advanced_advanced, advanced_set_stats, mark_pdf_as_processed_eq.
    cbv zeta. eexists. split; [reflexivity|].
    match goal with |- context [if ?b then _ else _] => destruct b end;
      cbn [snd processed_pdfs advanced stats].
    - split; [done|]. split; [|done].
      rewrite (events_since_app st _ (([EvOpen (pdf_path pdf)] ++ evs) ++
                 [EvSaveTracker (processed_pdfs st ∪
                    {[get_pdf_identifier (pdf_name pdf) district round_num]})]))
        by (cbn [trace advanced processed_pdfs]; by rewrite <- app_assoc).
      by rewrite !posts_app, Hposts.
    - split; [done|]. split; [|done].
      rewrite (events_since_app st _ ([EvOpen (pdf_path pdf)] ++ evs)) by reflexivity.
      by rewrite !posts_app, Hposts. }
  destruct Hrun as (st' & -> & Hset & Hposts & Hstats). cbn [fst snd].
  assert (Hin : get_pdf_identifier (pdf_name pdf) district round_num ∈ processed_pdfs st')
    by (rewrite Hset; set_solver).
  split; [done|]. split; [done|]. split; [done|]. split.
  - by rewrite Hstats, iter_incr_pages_analyzed.
  - by rewrite process_pdf_eq, bool_decide_eq_true_2.
Qed.

Lemma process_pdf_unrenderable_pages_witness :
  let st0 := init NoFile None in
  let out := process_pdf JsonDecoder.loads unrenderable_pdf "Lincoln" "1" st0 in
  out.1 = Ok []
  ∧ "Lincoln/1/scan.pdf" ∈ processed_pdfs out.2
  ∧ stats out.2 = mkStats 0 1 2 0 0 0.
Proof.
  cbv zeta.
  assert (Hall : Forall (λ page, page_render page = None)
                   [mkPage None (λ _, Response "[]"); mkPage None (λ _, Response "[]")]).
  { repeat (apply Forall_cons; split; [reflexivity|]). by apply Forall_nil. }
  assert (Hnew : get_pdf_identifier (pdf_name unrenderable_pdf) "Lincoln" "1"
                 ∉ processed_pdfs (init NoFile None)).
  { apply not_elem_of_empty. }
  destruct (process_pdf_unrenderable_pages JsonDecoder.loads unrenderable_pdf "Lincoln" "1"
              _ (init NoFile None) eq_refl Hall Hnew)
    as (Hout & Hin & _ & Hstats & _).
  split; [exact Hout|]. split; [exact Hin|exact Hstats].
Defined.

(** X12.  The identifier has the file name, not the path: once a PDF
    has been processed, a PDF with the same file name in the same round
    folder of the district, in a subfolder for instance, is skipped,
    whatever its pages are. *)
Theorem process_pdf_same_name_skipped
    (json_loads : string → option pyvalue) (pdf pdf' : Pdf) (district round_num : string)
    (pages : list Page) (records : list SoftwareRecord) (st : Analyzer) :
  pdf_name pdf' = pdf_name pdf →
  pdf_pages pdf = Some pages →
  let out := process_pdf json_loads pdf district round_num st in
  out.1 = Ok records →
  process_pdf json_loads pdf' district round_num out.2 = (Ok [], out.2).
Proof.
  intros Hname Hpages. cbv zeta. intros Hok.
  assert (Hin : get_pdf_identifier (pdf_name pdf) district round_num
                ∈ processed_pdfs (process_pdf json_loads pdf district round_num st).2).
  { revert Hok. rewrite process_pdf_eq. cbv zeta.
    destruct (bool_decide _) eqn:Hb; [intros _; by apply bool_decide_eq_true in Hb|].
    rewrite Hpages.
    pose proof (process_pages_spec json_loads pdf district round_num pages 0 []
                  (emit (EvOpen (pdf_path pdf)) st))
      as (s' & evs' & _ & _ & _ & Hint).
    cbv zeta in Hint.
    destruct (process_pages _ _ _ _ _ _ _ _) as [[all_records|e] st2]; cbn [fst snd] in *.
    - intros _. rewrite mark_pdf_as_processed_eq. cbv zeta.
      match goal with |- context [if ?b then _ else _] => destruct b end;
        cbn [snd processed_pdfs]; set_solver.
    - subst e. cbn [is_Exception fst]. discriminate. }
  rewrite process_pdf_eq, Hname. by rewrite bool_decide_eq_true_2.
Qed.

Lemma process_pdf_same_name_skipped_witness :
  let out := process_pdf JsonDecoder.loads lincoln_pdf "Lincoln" "1" (init NoFile None) in
  pdf_path lincoln_pdf_copy ≠ pdf_path lincoln_pdf
  ∧ process_pdf JsonDecoder.loads lincoln_pdf_copy "Lincoln" "1" out.2 = (Ok [], out.2).
Proof.
  cbv zeta. split; [discriminate|].
  assert (E : (process_pdf JsonDecoder.loads lincoln_pdf "Lincoln" "1" (init NoFile None)).1
              = Ok (match (process_pdf JsonDecoder.loads lincoln_pdf "Lincoln" "1"
                             (init NoFile None)).1 with
                    | Ok records => records
                    | Raise _ => []
                    end)).
  { by vm_compute. }
  exact (process_pdf_same_name_skipped JsonDecoder.loads lincoln_pdf lincoln_pdf_copy
           "Lincoln" "1" _ _ (init NoFile None) eq_refl eq_refl E).
Defined.

(** ** What a run keeps *)

Lemma keeps_refl st : keeps st st.
Proof. unfold keeps. repeat split; try done. by left. Qed.

Lemma keeps_trans st1 st2 st3 : keeps st1 st2 → keeps st2 st3 → keeps st1 st3.
Proof.
  intros (Hm & Ht & Hp & Hf) (Hm' & Ht' & Hp' & Hf'). unfold keeps.
  split; [by etrans|]. split; [by etrans|]. split; [by etrans|].
  destruct Hf' as [E'|(ids' & E' & H1 & H2)].
  - rewrite E'. destruct Hf as [E|(ids & E & H1 & H2)]; [by left|].
    right. exists ids. split; [done|]. split; [done|]. by etrans.
  - right. exists ids'. split; [done|]. split; [by etrans|done].
Qed.

Lemma keeps_advanced st s evs : keeps st (advanced st s evs).
Proof. unfold keeps, advanced, main_table. cbn. repeat split; try done. by left. Qed.

Lemma keeps_bind {A B} (m : M A) (k : A → M B) st :
  keeps st (m st).2 → (∀ a st1, keeps st1 (k a st1).2) → keeps st (bind m k st).2.
Proof.
  intros Hm Hk. unfold bind. destruct (m st) as [[a|e] st1]; cbn [snd] in *; [|done].
  eapply keeps_trans; [exact Hm|apply Hk].
Qed.

Lemma keeps_mark_pdf_as_processed pdf_name district round_num st :
  keeps st (mark_pdf_as_processed pdf_name district round_num st).2.
Proof.
  rewrite mark_pdf_as_processed_eq. cbv zeta.
  destruct (_ =? 0); unfold keeps, main_table; cbn.
  - repeat split; try done; [set_solver|].
    right. eexists. split; [done|]. split; [set_solver|done].
  - repeat split; try done; [set_solver|]. by left.
Qed.

Section Keeps.

Variable json_loads : string → option pyvalue.

Lemma keeps_process_pdf pdf district round_num st :
  keeps st (process_pdf json_loads pdf district round_num st).2.
Proof.
  rewrite process_pdf_eq. cbv zeta.
  destruct (bool_decide _); [apply keeps_refl|].
  destruct (pdf_pages pdf) as [pages|].
  - pose proof (process_pages_spec json_loads pdf district round_num pages 0 []
                  (emit (EvOpen (pdf_path pdf)) st)) as (s & evs & Hout & _).
    cbv zeta in Hout.
    destruct (process_pages _ _ _ _ _ _ _ _) as [[all_records|e] st2];
      cbn [fst snd] in *; subst st2; rewrite emit_advanced, advanced_advanced.
    + eapply keeps_trans; [|apply keeps_mark_pdf_as_processed].
      rewrite advanced_set_stats. apply keeps_advanced.
    + destruct (is_Exception e); cbn [snd]; [rewrite advanced_set_stats|];
        apply keeps_advanced.
  - cbn [snd]. rewrite emit_advanced, advanced_set_stats. apply keeps_advanced.
Qed.

Lemma keeps_process_round pdf_files district round_num : ∀ all_records st,
  keeps st (process_round json_loads pdf_files district round_num all_records st).2.
Proof.
  induction pdf_files as [|pdf_file rest IH]; intros all_records st; cbn [process_round].
  - apply keeps_refl.
  - apply keeps_bind; [apply keeps_process_pdf|]. intros records st1. apply IH.
Qed.

Lemma keeps_process_rounds round_folders limit district rounds : ∀ all_records st,
  keeps st (process_rounds json_loads round_folders limit district rounds all_records st).2.
Proof.
  induction rounds as [|round_num rounds IH]; intros all_records st; cbn [process_rounds].
  - apply keeps_refl.
  - apply keeps_bind; [|intros records st1; apply IH].
    destruct (round_folders !! round_num); [apply keeps_process_round|apply keeps_refl].
Qed.

(** The two saves write the same. *)
Lemma save_results_eq records st :
  ∃ st',
    save_final_results records st = (Ok tt, st')
    ∧ save_intermediate_results records st = (Ok tt, st')
    ∧ main_table st' = main_table st ++ records
    ∧ timestamped_files st'
      = timestamped_files st ++ (if records is [] then [] else [records])
    ∧ processed_pdfs st' = processed_pdfs st
    ∧ processed_pdfs_file st' = Tracker (processed_pdfs st)
    ∧ stats st' = stats st.
Proof.
  unfold save_final_results, save_intermediate_results, write_detailed_csv,
    save_processed_pdfs, bind, modify, ret, main_table.
  destruct records as [|record records]; cbn.
  - eexists. split; [reflexivity|]. split; [reflexivity|].
    rewrite !app_nil_r. repeat split; try done; by destruct (main_csv_file st).
  - eexists. split; [reflexivity|]. split; [reflexivity|].
    repeat split; try done; by destruct (main_csv_file st).
Qed.

Lemma keeps_save_results records st :
  keeps st (save_final_results records st).2
  ∧ keeps st (save_intermediate_results records st).2.
Proof.
  destruct (save_results_eq records st) as (st' & -> & -> & Hm & Ht & Hp & Hf & _).
  cbn [snd]. assert (keeps st st'); [|done].
  unfold keeps. rewrite Hm, Ht, Hp, Hf.
  split; [by apply prefix_app_r|]. split; [by apply prefix_app_r|]. split; [done|].
  right. by eexists.
Qed.

Lemma keeps_process_districts district_folders limit : ∀ all_records st,
  keeps st (process_districts json_loads district_folders limit all_records st).2.
Proof.
  induction district_folders as [|d ds IH]; intros all_records st; cbn [process_districts].
  - apply keeps_refl.
  - apply keeps_bind; [apply keeps_process_rounds|]. intros records st1.
    apply keeps_bind;
      [unfold modify; cbn [snd]; rewrite set_stats_advanced; apply keeps_advanced|].
    intros _ st2.
    apply keeps_bind; [apply keeps_refl|]. intros n st3.
    apply keeps_bind; [|intros _ st4; apply IH].
    destruct (_ =? 0); [apply keeps_save_results|apply keeps_refl].
Qed.

End Keeps.


(** ** Districts chosen by name *)

Lemma elem_of_concat_map {A B} (f : A → list B) (l : list A) (y : B) :
  y ∈ concat (map f l) ↔ ∃ x, x ∈ l ∧ y ∈ f x.
Proof.
  induction l as [|x l IH]; cbn.
  - split; [by intros ?%elem_of_nil|by intros (x & ?%elem_of_nil & _)].
  - rewrite elem_of_app, IH. split.
    + intros [H|(x' & Hx' & H)].
      * exists x. split; [apply list_elem_of_here|done].
      * exists x'. split; [by apply list_elem_of_further|done].
    + intros (x' & [->|Hx']%elem_of_cons & H); [by left|right; eauto].
Qed.

Lemma unique_districts_elem_of l : ∀ seen d,
  d ∈ unique_districts seen l → d ∈ l ∧ district_name d ∉ seen.
Proof.
  induction l as [|x l IH]; intros seen d; cbn; [by intros ?%elem_of_nil|].
  destruct (bool_decide_reflect (district_name x ∈ seen)) as [Hx|Hx].
  - intros [H1 H2]%IH. split; [by apply list_elem_of_further|done].
  - intros [->|H]%elem_of_cons; [split; [apply list_elem_of_here|done]|].
    apply IH in H as [H1 H2]. split; [by apply list_elem_of_further|set_solver].
Qed.

Lemma unique_districts_name l : ∀ seen d,
  d ∈ l → district_name d ∉ seen →
  ∃ d', d' ∈ unique_districts seen l ∧ district_name d' = district_name d.
Proof.
  induction l as [|x l IH]; intros seen d; cbn; [by intros ?%elem_of_nil|].
  intros [->|Hd]%elem_of_cons Hseen.
  - rewrite bool_decide_eq_false_2 by done. exists x. split; [apply list_elem_of_here|done].
  - destruct (bool_decide_reflect (district_name x ∈ seen)) as [Hx|Hx]; [by apply IH|].
    destruct (decide (district_name d = district_name x)) as [E|E].
    + exists x. split; [apply list_elem_of_here|done].
    + destruct (IH (seen ∪ {[district_name x]}) d Hd) as (d' & H1 & H2); [set_solver|].
      exists d'. split; [by apply list_elem_of_further|done].
Qed.

Lemma unique_districts_NoDup l : ∀ seen,
  NoDup (district_name <$> unique_districts seen l).
Proof.
  induction l as [|x l IH]; intros seen; cbn; [constructor|].
  destruct (bool_decide_reflect (district_name x ∈ seen)) as [Hx|Hx]; [apply IH|].
  cbn. constructor; [|apply IH].
  intros (d & Hname & Hd)%list_elem_of_fmap.
  apply unique_districts_elem_of in Hd as [_ Hd]. set_solver.
Qed.

Lemma contains_refl s : Str.contains s s = true.
Proof.
  assert (String.prefix s s = true) as H
    by (rewrite <- (string_app_nil_r s) at 2; apply prefix_app).
  destruct s; cbn [Str.contains]; by rewrite H.
Qed.

Lemma matches_of_elem_of target_name all_districts d :
  d ∈ matches_of target_name all_districts
  ↔ d ∈ all_districts
    ∧ (Str.lower (district_name d) = Str.lower target_name
       ∨ (Str.contains (Str.lower target_name) (Str.lower (district_name d)) = true
          ∧ ∀ e, e ∈ all_districts →
                 Str.lower (district_name e) ≠ Str.lower target_name)).
Proof.
  unfold matches_of.
  destruct (exact_matches target_name all_districts) as [|x found] eqn:E.
  - assert (Hnone : ∀ e, e ∈ all_districts →
                         Str.lower (district_name e) ≠ Str.lower target_name).
    { intros e He Heq.
      assert (e ∈ exact_matches target_name all_districts) as Hin
        by (by apply list_elem_of_filter).
      rewrite E in Hin. by apply elem_of_nil in Hin. }
    unfold partial_matches. rewrite list_elem_of_filter. split.
    + intros [Hc Hd]. split; [done|]. by right.
    + intros [Hd [Heq|[Hc _]]]; [by destruct (Hnone d Hd)|done].
  - rewrite <- E. unfold exact_matches. rewrite list_elem_of_filter. split.
    + intros [Heq Hd]. split; [done|]. by left.
    + intros [Hd [Heq|[_ Hnone]]]; [done|].
      assert (x ∈ exact_matches target_name all_districts) as Hx
        by (rewrite E; apply list_elem_of_here).
      apply list_elem_of_filter in Hx as [Hx1 Hx2]. by destruct (Hnone x Hx2).
Qed.

(** X14.  [filter_districts_by_name] for the districts of a directory,
    which have distinct names, and at least one name asked for: the
    result has no district twice, and a district is in it exactly when
    for one of the names asked for, compared without regard to case,
    its name is that name, or contains it while no district has
    exactly that name. *)
Theorem filter_districts_by_name_matches
    (district_names : list string) (all_districts : list District) :
  district_names ≠ [] →
  NoDup (district_name <$> all_districts) →
  let unique_districts := filter_districts_by_name district_names all_districts in
  NoDup (district_name <$> unique_districts)
  ∧ ∀ d, d ∈ unique_districts
         ↔ d ∈ all_districts
           ∧ ∃ target_name, target_name ∈ district_names
               ∧ (Str.lower (district_name d) = Str.lower target_name
                  ∨ (Str.contains (Str.lower target_name) (Str.lower (district_name d)) = true
                     ∧ ∀ e, e ∈ all_districts →
                            Str.lower (district_name e) ≠ Str.lower target_name)).
Proof.
  intros Hnames Hdistinct. cbv zeta. unfold filter_districts_by_name.
  destruct district_names as [|name names]; [done|].
  set (targets := name :: names). split; [apply unique_districts_NoDup|].
  intros d. split.
  - intros [Hd _]%unique_districts_elem_of.
    apply elem_of_concat_map in Hd as (target_name & Ht & Hd).
    apply matches_of_elem_of in Hd as [Hd Hm]. eauto.
  - intros (Hd & target_name & Ht & Hm).
    assert (d ∈ concat (map (λ t, matches_of t all_districts) targets)) as Hin.
    { apply elem_of_concat_map. exists target_name. split; [done|].
      by apply matches_of_elem_of. }
    destruct (unique_districts_name _ ∅ d Hin) as (d' & Hd' & Hname); [set_solver|].
    assert (d' ∈ all_districts) as Hall.
    { apply unique_districts_elem_of in Hd' as [Hd' _].
      apply elem_of_concat_map in Hd' as (t & _ & Hd').
      by apply matches_of_elem_of in Hd' as [Hd' _]. }
    assert (d' = d) as <-; [|done].
    clear -Hdistinct Hall Hd Hname.
    induction all_districts as [|x l IH]; [by apply elem_of_nil in Hd|].
    cbn in Hdistinct. apply NoDup_cons in Hdistinct as [Hx Hl].
    apply elem_of_cons in Hall as [->|Hall]; apply elem_of_cons in Hd as [->|Hd];
      try done.
    + destruct Hx. rewrite Hname. by apply list_elem_of_fmap_2.
    + destruct Hx. rewrite <- Hname. by apply list_elem_of_fmap_2.
    + by apply IH.
Qed.

Lemma filter_districts_by_name_matches_witness :
  NoDup (district_name <$> filter_districts_by_name ["can"; "Canton"] five_districts)
  ∧ (small_district "Canton" (answering "Canton")
     ∈ filter_districts_by_name ["can"; "Canton"] five_districts).
Proof.
  assert (H1 : ["can"; "Canton"] ≠ []) by discriminate.
  assert (H2 : NoDup (district_name <$> five_districts)).
  { apply (bool_decide_unpack _). by vm_compute. }
  destruct (filter_districts_by_name_matches ["can"; "Canton"] five_districts H1 H2)
    as [Hnodup Hin].
  split; [exact Hnodup|]. apply Hin. split.
  - unfold five_districts. apply list_elem_of_further, list_elem_of_here.
  - exists "Canton". split; [apply list_elem_of_further, list_elem_of_here|].
    left. reflexivity.
Defined.

Section Named.

Variable json_loads : string → option pyvalue.

Lemma keeps_process_all_districts_named base_dir limit_districts limit_pdfs names st :
  keeps st (process_all_districts_named json_loads base_dir limit_districts limit_pdfs
              names st).2.
Proof.
  unfold process_all_districts_named. cbv zeta.
  destruct names as [|name names];
    [|destruct (filter_districts_by_name _ _); [apply keeps_refl|]];
    (apply keeps_bind; [apply keeps_process_districts|]);
    intros records st1; apply keeps_save_results.
Qed.

End Named.

(** X15.  [process_all_districts] with district names: when no
    district has a name that contains one of the names asked for,
    without regard to case, the method returns at once: no PDF is
    opened, nothing is counted and no file is written, not even the
    tracking file.  Without names it is the run over all districts. *)
Theorem process_all_districts_named_no_match
    (json_loads : string → option pyvalue) (base_dir : list District)
    (limit_districts limit_pdfs_per_round : option nat)
    (district_names : list string) (st : Analyzer) :
  (district_names ≠ [] →
   (∀ target_name d, target_name ∈ district_names → d ∈ base_dir →
      Str.contains (Str.lower target_name) (Str.lower (district_name d)) = false) →
   process_all_districts_named json_loads base_dir limit_districts limit_pdfs_per_round
     district_names st = (Ok tt, st))
  ∧ process_all_districts_named json_loads base_dir limit_districts limit_pdfs_per_round [] st
    = process_all_districts json_loads base_dir limit_districts limit_pdfs_per_round st.
Proof.
  split; [|reflexivity].
  intros Hnames Hnone. unfold process_all_districts_named.
  destruct district_names as [|name names]; [done|].
  set (targets := name :: names) in *.
  set (all_district_folders := filter _ base_dir).
  destruct (filter_districts_by_name targets all_district_folders) as [|d found] eqn:E;
    [reflexivity|].
  exfalso.
  assert (d ∈ filter_districts_by_name targets all_district_folders) as Hd
    by (rewrite E; apply list_elem_of_here).
  unfold filter_districts_by_name, targets in Hd.
  apply unique_districts_elem_of in Hd as [Hd _].
  apply elem_of_concat_map in Hd as (target_name & Ht & Hd).
  apply matches_of_elem_of in Hd as [Hd Hm].
  apply list_elem_of_filter in Hd as [_ Hd].
  specialize (Hnone target_name d Ht Hd).
  destruct Hm as [Heq|[Hc _]]; [|congruence].
  rewrite Heq, contains_refl in Hnone. discriminate.
Qed.

Lemma process_all_districts_named_no_match_witness :
  process_all_districts_named JsonDecoder.loads five_districts None None ["Boston"]
    (init NoFile None)
  = (Ok tt, init NoFile None).
Proof.
  apply (proj1 (process_all_districts_named_no_match JsonDecoder.loads five_districts
                  None None ["Boston"] (init NoFile None))); [discriminate|].
  intros target_name d Ht Hd.
  apply elem_of_cons in Ht as [->|Ht]; [|by apply elem_of_nil in Ht].
  unfold five_districts in Hd.
  repeat (apply elem_of_cons in Hd as [->|Hd]; [reflexivity|]).
  by apply elem_of_nil in Hd.
Defined.

(** X16.  [main] handles every exception, the interrupt included, and
    returns.  Whatever the options, the rows of the main table and the
    timestamped files that were there are kept.  Without an API key,
    and with --list-districts or --status, no file is changed, whatever
    the other options.  With --clear-tracking and neither of these, the
    tracking file is removed and the tables are left as they are. *)
Theorem main_commands
    (json_loads : string → option pyvalue) (api_key : bool) (args : Args)
    (base_dir : list District) (st : Analyzer) :
  let out := main json_loads api_key args base_dir st in
  out.1 = Ok tt
  ∧ main_table st `prefix_of` main_table out.2
  ∧ timestamped_files st `prefix_of` timestamped_files out.2
  ∧ (api_key = false ∨ arg_list_districts args = true ∨ arg_status args = true →
       processed_pdfs_file out.2 = processed_pdfs_file st
       ∧ main_csv_file out.2 = main_csv_file st
       ∧ timestamped_files out.2 = timestamped_files st)
  ∧ (api_key = true → arg_list_districts args = false → arg_status args = false →
     arg_clear_tracking args = true →
       processed_pdfs_file out.2 = NoFile
       ∧ main_csv_file out.2 = main_csv_file st
       ∧ timestamped_files out.2 = timestamped_files st).
Proof.
  cbv zeta. unfold main, try_except.
  destruct api_key.
  2: { cbn. repeat split; try done. }
  unfold bind, modify.
  destruct (arg_list_districts args).
  { cbn. repeat split; try done. }
  destruct (arg_status args).
  { cbn. repeat split; try done. }
  destruct (arg_clear_tracking args).
  { unfold clear_tracking_file, modify, restart, main_table. cbn.
    destruct (processed_pdfs_file st); cbn;
      (split; [done|]); (split; [done|]); (split; [done|]);
      (split; [intros [|[|]]; discriminate|done]). }
  destruct (arg_full_run args); cbv beta iota zeta;
  match goal with
  | |- context [process_all_districts_named json_loads base_dir ?ld ?lp ?names (restart st)] =>
      pose proof (keeps_process_all_districts_named json_loads base_dir ld lp names
                    (restart st)) as (Hm & Ht & _);
      destruct (process_all_districts_named json_loads base_dir ld lp names (restart st))
        as [[[]|e] st'] eqn:E
  end; cbn [fst snd] in *;
    change (main_table (restart st)) with (main_table st) in Hm;
    change (timestamped_files (restart st)) with (timestamped_files st) in Ht;
    (split; [done|]); (split; [done|]); (split; [done|]);
    (split; [intros [|[|]]; discriminate|intros; discriminate]).
Qed.
